(** * The step-dependency and streaming-orchestration engine of the
      long-form generator: the zustand store ([useAppStore]), the research
      services of [geminiService] and the controller handlers of [App.tsx],
      as a shallow embedding, with the properties of the workflow proved
      about them. *)

From Stdlib Require Import ZArith NArith List Ascii String DecimalString.
From stdpp Require Import gmap.
Import ListNotations.

#[local] Set Warnings "-clear-no-such-hyp".

Local Open Scope Z_scope.

(** ** JavaScript strings

    A JS string is a sequence of UTF-16 code units; [length], [trim],
    [includes] and [+] work on code units.  Literals of the source are
    written as Rocq strings (UTF-8 bytes) and decoded by [js]. *)

Definition jsstring := list N.

Fixpoint utf16_of_bytes (bs : list N) : list N :=
  match bs with
  | [] => []
  | b0 :: r0 =>
    if (b0 <? 128)%N then b0 :: utf16_of_bytes r0
    else match r0 with
    | [] => [65533%N]
    | b1 :: r1 =>
      if (b0 <? 224)%N then
        (N.land b0 31 * 64 + N.land b1 63)%N :: utf16_of_bytes r1
      else match r1 with
      | [] => [65533%N]
      | b2 :: r2 =>
        if (b0 <? 240)%N then
          (N.land b0 15 * 4096 + N.land b1 63 * 64 + N.land b2 63)%N
            :: utf16_of_bytes r2
        else match r2 with
        | [] => [65533%N]
        | b3 :: r3 =>
          let cp := (N.land b0 7 * 262144 + N.land b1 63 * 4096
                     + N.land b2 63 * 64 + N.land b3 63)%N in
          let v := (cp - 65536)%N in
          (55296 + N.shiftr v 10)%N :: (56320 + N.land v 1023)%N
            :: utf16_of_bytes r3
        end
      end
    end
  end.

Definition js (s : string) : jsstring :=
  utf16_of_bytes (map N_of_ascii (list_ascii_of_string s)).
Arguments js s%_string.

(** The newline of the source's ["\n"] escapes. *)
Definition nl : jsstring := [10%N].

(** [String(n)] for an integer [n], as template literals print it. *)
Definition js_of_Z (n : Z) : jsstring :=
  js (NilZero.string_of_int (Z.to_int n)).

(** The code units matched by the regular expression [\s] and stripped by
    [String.prototype.trim]: WhiteSpace and LineTerminator. *)
Definition is_whitespace (c : N) : bool :=
  ((9 <=? c) && (c <=? 13) || (c =? 32) || (c =? 160) || (c =? 5760)
   || (8192 <=? c) && (c <=? 8202) || (c =? 8232) || (c =? 8233)
   || (c =? 8239) || (c =? 8287) || (c =? 12288) || (c =? 65279))%N.

Fixpoint trimStart (s : jsstring) : jsstring :=
  match s with
  | [] => []
  | c :: r => if is_whitespace c then trimStart r else s
  end.

Definition trim (s : jsstring) : jsstring :=
  rev (trimStart (rev (trimStart s))).

(** Truthiness of a string: [!!s], and [!s] is its negation. *)
Definition truthy (s : jsstring) : bool :=
  match s with [] => false | _ => true end.

(** [s.replace(/\s/g, '')]. *)
Definition strip_whitespace (s : jsstring) : jsstring :=
  filter (fun c => is_whitespace c = false) s.

Fixpoint startsWith (p s : jsstring) : bool :=
  match p, s with
  | [], _ => true
  | _ :: _, [] => false
  | a :: p', b :: s' => (a =? b)%N && startsWith p' s'
  end.

(** [hay.includes(needle)]. *)
Fixpoint includes (needle hay : jsstring) : bool :=
  startsWith needle hay
  || match hay with
     | [] => false
     | _ :: r => includes needle r
     end.

(** ** The data model of the store ([AppState]) *)

Record Citation := { title : jsstring; uri : jsstring }.

Record Character :=
  { name : jsstring; profession : jsstring; background : jsstring }.

Record Prompts := {
  step1 : jsstring; step2 : jsstring; step2Add : jsstring;
  step3 : jsstring; step4 : jsstring; step4Extend : jsstring;
  step5 : jsstring; step4System : jsstring; step5System : jsstring }.

Record AppState := {
  step : Z;
  loading : gmap Z bool;
  preparingStep : option Z;
  error : option jsstring;
  topic : jsstring;
  isTopicConfirmed : bool;
  researchData : jsstring;
  supplementalResearchQuery : jsstring;
  citations : list Citation;
  characters : list Character;
  meetingTranscript : jsstring;
  finalArticle : jsstring;
  prompts : Prompts }.

(** [Updater<T> = T | ((prev: T) => T)] and [resolveUpdater]. *)
Inductive Updater (T : Type) :=
  | Direct (v : T)
  | Functional (f : T -> T).
Arguments Direct {T} v.
Arguments Functional {T} f.

Definition resolveUpdater {T} (updater : Updater T) (prevState : T) : T :=
  match updater with
  | Functional f => f prevState
  | Direct v => v
  end.

(** A [Partial<AppState>] object is the sequence of its property
    assignments; zustand's [set] merges it into the current state, a later
    assignment of a property overriding an earlier one. *)
Inductive Field :=
  | FStep (v : Z)
  | FLoading (v : gmap Z bool)
  | FPreparingStep (v : option Z)
  | FError (v : option jsstring)
  | FTopic (v : jsstring)
  | FIsTopicConfirmed (v : bool)
  | FResearchData (v : jsstring)
  | FSupplementalResearchQuery (v : jsstring)
  | FCitations (v : list Citation)
  | FCharacters (v : list Character)
  | FMeetingTranscript (v : jsstring)
  | FFinalArticle (v : jsstring)
  | FPrompts (v : Prompts).

Definition assign (s : AppState) (f : Field) : AppState :=
  let '{| step := a; loading := b; preparingStep := c; error := d;
          topic := e; isTopicConfirmed := g; researchData := h;
          supplementalResearchQuery := i; citations := j; characters := k;
          meetingTranscript := l; finalArticle := m; prompts := n |} := s in
  match f with
  | FStep v => Build_AppState v b c d e g h i j k l m n
  | FLoading v => Build_AppState a v c d e g h i j k l m n
  | FPreparingStep v => Build_AppState a b v d e g h i j k l m n
  | FError v => Build_AppState a b c v e g h i j k l m n
  | FTopic v => Build_AppState a b c d v g h i j k l m n
  | FIsTopicConfirmed v => Build_AppState a b c d e v h i j k l m n
  | FResearchData v => Build_AppState a b c d e g v i j k l m n
  | FSupplementalResearchQuery v => Build_AppState a b c d e g h v j k l m n
  | FCitations v => Build_AppState a b c d e g h i v k l m n
  | FCharacters v => Build_AppState a b c d e g h i j v l m n
  | FMeetingTranscript v => Build_AppState a b c d e g h i j k v m n
  | FFinalArticle v => Build_AppState a b c d e g h i j k l v n
  | FPrompts v => Build_AppState a b c d e g h i j k l m v
  end.

Definition Partial := list Field.

Definition merge_state (s : AppState) (p : Partial) : AppState :=
  fold_left assign p s.

(** [set(state => partial)]. *)
Definition set_ (f : AppState -> Partial) (s : AppState) : AppState :=
  merge_state s (f s).

(** ** The citation merge

    The loop [for (const c of incoming) if (!acc.some(mc => mc.uri ===
    c.uri)) acc.push(c)] occurs four times in the source, over a copy of
    the existing array: in [appendToResearch], in the [onComplete] of
    [handleSupplementalResearch], and in the generators of
    [conductResearchStream] and [supplementalResearchStream]. *)

Definition jsstring_eqb (a b : jsstring) : bool := bool_decide (a = b).

Definition has_uri (u : jsstring) (acc : list Citation) : bool :=
  existsb (fun mc => jsstring_eqb (uri mc) u) acc.

Definition push_new (acc : list Citation) (c : Citation) : list Citation :=
  if has_uri (uri c) acc then acc else acc ++ [c].

Definition mergeCitations (existing incoming : list Citation)
  : list Citation :=
  fold_left push_new incoming existing.

(** ** The store actions *)

Definition setStep (u : Updater Z) : AppState -> AppState :=
  set_ (fun state => [FStep (resolveUpdater u (step state))]).
Definition setLoading (u : Updater (gmap Z bool)) : AppState -> AppState :=
  set_ (fun state => [FLoading (resolveUpdater u (loading state))]).
Definition setPreparingStep (u : Updater (option Z))
  : AppState -> AppState :=
  set_ (fun state =>
          [FPreparingStep (resolveUpdater u (preparingStep state))]).
Definition setError (u : Updater (option jsstring)) : AppState -> AppState :=
  set_ (fun state => [FError (resolveUpdater u (error state))]).
Definition setTopic (u : Updater jsstring) : AppState -> AppState :=
  set_ (fun state => [FTopic (resolveUpdater u (topic state))]).
Definition confirmTopic : AppState -> AppState :=
  set_ (fun _ => [FIsTopicConfirmed true]).
Definition setResearchData (u : Updater jsstring) : AppState -> AppState :=
  set_ (fun state => [FResearchData (resolveUpdater u (researchData state))]).
Definition setSupplementalResearchQuery (u : Updater jsstring)
  : AppState -> AppState :=
  set_ (fun state =>
          [FSupplementalResearchQuery
             (resolveUpdater u (supplementalResearchQuery state))]).
Definition setCitations (u : Updater (list Citation))
  : AppState -> AppState :=
  set_ (fun state => [FCitations (resolveUpdater u (citations state))]).
Definition setCharacters (u : Updater (list Character))
  : AppState -> AppState :=
  set_ (fun state => [FCharacters (resolveUpdater u (characters state))]).
Definition addCharacter (character : Character) : AppState -> AppState :=
  set_ (fun state => [FCharacters (characters state ++ [character])]).

(** [array.filter((_, i) => i !== indexToDelete)]. *)
Fixpoint filter_index {A} (keep : Z -> bool) (i : Z) (l : list A) : list A :=
  match l with
  | [] => []
  | x :: r =>
    if keep i then x :: filter_index keep (i + 1) r
    else filter_index keep (i + 1) r
  end.

Definition deleteCharacter (indexToDelete : Z) : AppState -> AppState :=
  set_ (fun state =>
          [FCharacters
             (filter_index (fun i => negb (i =? indexToDelete)) 0
                           (characters state))]).
Definition setMeetingTranscript (u : Updater jsstring)
  : AppState -> AppState :=
  set_ (fun state =>
          [FMeetingTranscript (resolveUpdater u (meetingTranscript state))]).
Definition setFinalArticle (u : Updater jsstring) : AppState -> AppState :=
  set_ (fun state => [FFinalArticle (resolveUpdater u (finalArticle state))]).
Definition saveFinalArticleEdit (s : AppState) : AppState := s.
Definition setPrompts (u : Updater Prompts) : AppState -> AppState :=
  set_ (fun state => [FPrompts (resolveUpdater u (prompts state))]).

(** [for (let i = fromStep; i <= 5; i++) delete newLoading[i]], the loop
    unrolled over its [n] remaining iterations. *)
Fixpoint delete_steps (n : nat) (i : Z) (newLoading : gmap Z bool)
  : gmap Z bool :=
  match n with
  | O => newLoading
  | S n' => delete_steps n' (i + 1) (delete i newLoading)
  end.

Definition resetStepsFrom (fromStep : Z) : AppState -> AppState :=
  set_ (fun state =>
    let newState : Partial := [] in
    let newState :=
      if fromStep <=? 1
      then newState ++ [FTopic []; FIsTopicConfirmed false] else newState in
    let newState :=
      if fromStep <=? 2
      then newState ++ [FResearchData []; FSupplementalResearchQuery [];
                        FCitations []]
      else newState in
    let newState :=
      if fromStep <=? 3 then newState ++ [FCharacters []] else newState in
    let newState :=
      if fromStep <=? 4 then newState ++ [FMeetingTranscript []]
      else newState in
    let newState :=
      if fromStep <=? 5 then newState ++ [FFinalArticle []] else newState in
    let newLoading :=
      delete_steps (Z.to_nat (5 - fromStep + 1)) fromStep (loading state) in
    newState ++ [FLoading newLoading; FError None]).

Definition appendToResearch (newResearch : jsstring)
           (newCitations : list Citation) : AppState -> AppState :=
  set_ (fun state =>
    let updatedCitations := mergeCitations (citations state) newCitations in
    [FResearchData (researchData state ++ newResearch);
     FCitations updatedCitations]).

(** ** Default prompts, initial state and [resetAll] *)

Definition DEFAULT_PROMPTS : Prompts := {|
  step1 :=
    js "請以繁體中文，生成一個荒謬但引人深思的長篇文章主題，結合兩個完全無關的概念。例如：「火影忍者的敘事結構與日本當代社會創傷的相似之處」或「藝人豬哥亮與台積電股價表現之間的神秘關聯」。請只提供主題字串，不要加上任何引號或標籤。";
  step2 :=
    js "針對主題「{{topic}}」，請進行深入的網路搜尋，以繁體中文收集其核心概念的詳細資訊。請將主題拆解為多個關鍵字（例如，若主題為「火影忍者與日本社會創傷」，請搜尋「火影忍者劇情大綱」、「火影忍者核心主題」、「當代日本社會」、「現代日本的社會問題」、「日本社會創傷的成因」等），然後將搜尋結果整合成一份結構清晰、內容詳盡的研究簡報。請盡可能提供豐富且詳細的資訊，並使用 markdown 格式化文本。";
  step2Add :=
    js "請根據以下現有研究資料：" ++ nl ++ js "{{researchData}}" ++ nl ++ nl ++ js "針對主題「{{topic}}」，補充搜尋並提供關於「{{supplementalQuery}}」的詳細資訊。將補充資料以結構清晰、內容詳盡的markdown格式文本輸出，並整合到原有資料後方，但不要重複已有的資訊。";
  step3 :=
    js "根據主題「{{topic}}」及以下研究資料：「{{researchData}}」，請以繁體中文創建一個由6位虛構專家組成的多元化會議小組。每位專家都必須有獨特的中文姓名、具體的職業，以及與主題某一面向相關的詳細背景。這個團隊的設計應能促進辯論，成員間可能持有衝突但皆合理的觀點，以確保對主題進行全面且多角度的分析。例如，若主題是關於火影忍者和社會創傷，團隊可包含一位專攻日本流行文化的社會學家、一位臨床心理學家、一位文學評論家和一位經濟學家。請確保他們的個性和專業能形成有效的制衡與激盪。";
  step4 :=
    js "主題：{{topic}}" ++ nl ++ nl ++ js "研究簡報：" ++ nl ++ js "{{researchData}}" ++ nl ++ nl ++ js "與會者：" ++ nl ++ js "{{characterProfiles}}" ++ nl ++ nl ++ js "你的任務是模擬一場在這些專家之間進行的、長篇且詳細的辯論會的完整逐字稿。這場討論的目標是為一篇關於此主題的長篇文章擬定大綱。他們應該涵蓋文章的可能結構、核心論點、所需數據和反方論點。每位專家都必須從自身的專業角度發言。目標是在達成大致共識前，對主題進行深入的探討。請以會議記錄的形式輸出，每一行都以角色名稱開頭，後接冒號和其發言內容。請確保討論內容充實，每位角色都有多次發言機會，並全程使用繁體中文。";
  step4Extend :=
    js "目前為止的討論紀錄：" ++ nl ++ js "{{existingTranscript}}" ++ nl ++ nl ++ js "主題：{{topic}}" ++ nl ++ nl ++ js "研究簡報：" ++ nl ++ js "{{researchData}}" ++ nl ++ nl ++ js "與會者：" ++ nl ++ js "{{characterProfiles}}" ++ nl ++ nl ++ js "你的任務是接續這場辯論。客戶認為先前的討論不夠深入。請引入新的觀點、挑戰現有的假設，或探討一個被忽略的切入點。生成一段實質性的新對話紀錄，為討論增添更多價值與深度。不要重複先前的論點。直接從下一位發言者的對話開始。全程使用繁體中文。";
  step5 :=
    js "你的任務是根據以下資料，撰寫一篇至少5000字的全面、深入的繁體中文文章。請利用提供的研究簡報作為事實基礎，並參考會議紀錄來建構核心論點、文章架構和多元觀點。最終的文章必須結構清晰（使用 markdown 標題）、條理分明，並將專家們辯論的想法無縫地整合在一起。請不要只是總結會議紀錄，而是要將其合成為一篇全新、具權威性的文章。" ++ nl ++ nl ++ js "主題：{{topic}}" ++ nl ++ nl ++ js "研究簡報：" ++ nl ++ js "{{researchData}}" ++ nl ++ nl ++ js "會議紀錄：" ++ nl ++ js "{{transcript}}" ++ nl ++ nl ++ js "現在，請開始撰寫這篇詳細的最終文章。";
  step4System :=
    js "你是一位專業的會議主持人。你的任務是模擬一場專家間的對話。每位專家都必須根據其背景描述，從自己的專業角度進行論證。他們必須基於他人的觀點進行延伸、批判和挑戰，並使用繁體中文進行交流。";
  step5System :=
    js "你是一位專業的長文作家。你的任務是將一場複雜的討論，合成為一篇條理清晰、結構嚴謹且見解深刻的繁體中文文章。你必須保持中立，準確地呈現各位專家的觀點，同時創造出引人入勝的敘事。" |}.

Definition initial_state : AppState := {|
  step := 1; loading := ∅; preparingStep := None; error := None;
  topic := []; isTopicConfirmed := false;
  researchData := []; supplementalResearchQuery := []; citations := [];
  characters := []; meetingTranscript := []; finalArticle := [];
  prompts := DEFAULT_PROMPTS |}.

Definition resetAll : AppState -> AppState :=
  set_ (fun _ =>
    [FStep 1; FTopic []; FIsTopicConfirmed false; FResearchData [];
     FSupplementalResearchQuery []; FCitations []; FCharacters [];
     FMeetingTranscript []; FFinalArticle []; FPrompts DEFAULT_PROMPTS;
     FLoading ∅; FPreparingStep None; FError None]).

(** ** StepCompletionPolicy: [isStepLogicallyCompleted] *)

Definition isStepLogicallyCompleted (s : AppState) (stepNumber : Z) : bool :=
  if stepNumber =? 1 then isTopicConfirmed s
  else if stepNumber =? 2 then
    (50 <? Z.of_nat (length (strip_whitespace (researchData s))))
    || (0 <? Z.of_nat (length (citations s)))
  else if stepNumber =? 3 then 0 <? Z.of_nat (length (characters s))
  else if stepNumber =? 4 then truthy (trim (meetingTranscript s))
  else if stepNumber =? 5 then truthy (trim (finalArticle s))
  else false.

(** ** Thrown values and their classification *)

(** What a [catch (e)] can receive: an [Error] object with its message, or
    any other value. *)
Inductive Thrown :=
  | ErrorObj (message : jsstring)
  | NonError.

Definition isRateLimitError (e : Thrown) : bool :=
  match e with
  | ErrorObj message =>
    includes (js "429") message || includes (js "RESOURCE_EXHAUSTED") message
  | NonError => false
  end.

Definition quota_message : jsstring :=
  js "請求過於頻繁，已超出您的目前配額。請稍候片刻再試一次。".

Definition unknown_error_message : jsstring := js "發生未知錯誤。".

(** The template literal of the [catch] blocks, for an [Error]. *)
Definition step_failure_message (stepNumber : Z) (message : jsstring)
  : jsstring :=
  js "步驟 " ++ js_of_Z stepNumber ++ js " 失敗: " ++ message.

Definition failure_message (stepNumber : Z) (e : Thrown) : jsstring :=
  if isRateLimitError e then quota_message
  else match e with
       | ErrorObj message => step_failure_message stepNumber message
       | NonError => unknown_error_message
       end.

(** ** The research services of [geminiService]

    The provider's streamed response is a sequence of chunks, each with an
    optional text and grounding metadata, possibly ended by a failure. *)

Record WebSource := { web_title : jsstring; web_uri : jsstring }.

(** [chunk_text] is empty when the chunk has no text; an element of
    [groundingChunks] is [None] when it has no [web] property. *)
Record ResponseChunk := {
  chunk_text : jsstring;
  groundingChunks : list (option WebSource) }.

Definition extractCitations (response : ResponseChunk) : list Citation :=
  flat_map
    (fun chunk : option WebSource =>
       match chunk with
       | Some web =>
         [{| title := if truthy (web_title web) then web_title web
                      else js "無標題";
             uri := web_uri web |}]
       | None => []
       end)
    (groundingChunks response).

(** What the consumer of a generator observes, in order: a fragment handed
    over by [yield], or (between two fragments, when the generator is
    resumed) the generator pushing citations into the [collectedCitations]
    array of its request. *)
Inductive StreamStep :=
  | Yield (fragment : jsstring)
  | Collect (newCitations : list Citation).

Inductive Ending :=
  | Exhausted
  | Throws (e : Thrown).

Record Stream := { steps : list StreamStep; ending : Ending }.

(** The body of the [for await] of [streamGenerator] for one chunk pulled
    by the generator that the caller iterates. *)
Definition streamGenerator_chunk (chunk : ResponseChunk) : list StreamStep :=
  (if truthy (chunk_text chunk) then [Yield (chunk_text chunk)] else [])
  ++ [Collect (extractCitations chunk)].

(** What a service resolves to.  [shares_citations] tells that the object
    has a [citations] property: it is the very array the generator pushes
    into, not a copy. *)
Record StreamResult := {
  stream : Stream;
  shares_citations : bool;
  prompt : jsstring }.

Inductive ApiResult (T : Type) :=
  | Resolved (v : T)
  | Rejected (e : Thrown).
Arguments Resolved {T} v.
Arguments Rejected {T} e.

Record Response := {
  chunks : list ResponseChunk;
  failure : option Thrown }.

Definition ending_of (failure : option Thrown) : Ending :=
  match failure with
  | Some e => Throws e
  | None => Exhausted
  end.

(** [supplementalResearchStream]: one generator over the response. *)
Definition supplementalResearch_result (r : Response) (fullPrompt : jsstring)
  : StreamResult :=
  {| stream := {| steps := flat_map streamGenerator_chunk (chunks r);
                  ending := ending_of (failure r) |};
     shares_citations := true;
     prompt := fullPrompt |}.

Definition supplementalResearchStream
           (response : ApiResult (Response * jsstring))
  : ApiResult StreamResult :=
  match response with
  | Rejected e => Rejected e
  | Resolved (r, fullPrompt) =>
    Resolved (supplementalResearch_result r fullPrompt)
  end.

(** [conductResearchStream] creates two generators over the one response:
    [finalStream], drained in the background by [finalCitationsPromise],
    and the one it returns.  Each chunk of the response is pulled by one of
    them; which one is decided by the scheduler and is part of the input
    here.  Both push into the same [collectedCitations]; the text of a
    chunk pulled by [finalStream] only reaches [aggregatedText], which
    nothing reads. *)
Inductive Consumer :=
  | FinalStream
  | ReturnedStream.

Record ScheduledResponse := {
  pulled : list (Consumer * ResponseChunk);
  pulled_failure : option (Consumer * Thrown) }.

Definition conductResearch_chunk (p : Consumer * ResponseChunk)
  : list StreamStep :=
  match p with
  | (FinalStream, chunk) => [Collect (extractCitations chunk)]
  | (ReturnedStream, chunk) => streamGenerator_chunk chunk
  end.

(** A failure of the response reaches the generator that was pulling; the
    other one then sees the response exhausted. *)
Definition conductResearch_ending (f : option (Consumer * Thrown)) : Ending :=
  match f with
  | Some (ReturnedStream, e) => Throws e
  | Some (FinalStream, _) => Exhausted
  | None => Exhausted
  end.

Definition conductResearch_result (r : ScheduledResponse) (prompt : jsstring)
  : StreamResult :=
  {| stream := {| steps := flat_map conductResearch_chunk (pulled r);
                  ending := conductResearch_ending (pulled_failure r) |};
     shares_citations := true;
     prompt := prompt |}.

Definition conductResearchStream
           (response : ApiResult (ScheduledResponse * jsstring))
  : ApiResult StreamResult :=
  match response with
  | Rejected e => Rejected e
  | Resolved (r, prompt) => Resolved (conductResearch_result r prompt)
  end.

(** [createDiscussionStream]: every chunk's text is yielded; there is no
    [citations] property. *)
Definition discussion_result (r : Response) (prompt : jsstring)
  : StreamResult :=
  {| stream := {| steps := map (fun chunk => Yield (chunk_text chunk))
                               (chunks r);
                  ending := ending_of (failure r) |};
     shares_citations := false;
     prompt := prompt |}.

Definition createDiscussionStream
           (response : ApiResult (Response * jsstring))
  : ApiResult StreamResult :=
  match response with
  | Rejected e => Rejected e
  | Resolved (r, prompt) => Resolved (discussion_result r prompt)
  end.

(** The requests the controller can issue, with their arguments. *)
Inductive ApiCall :=
  | GenerateTopic (customPrompt : jsstring)
  | ConductResearchStream (topic customPrompt : jsstring)
  | SupplementalResearchStream
      (supplementalQuery researchData customPrompt : jsstring)
  | GenerateMeetingGroup (topic researchData customPrompt : jsstring)
  | StartDiscussionStream
      (topic researchData : jsstring) (characters : list Character)
      (customPrompt systemInstruction : jsstring)
  | ExtendDiscussionStream
      (topic researchData : jsstring) (characters : list Character)
      (existingTranscript customPrompt systemInstruction : jsstring)
  | GenerateFinalArticleStream
      (topic researchData transcript customPrompt systemInstruction
       : jsstring).

(** The generation API as the controller meets it: for each request, what
    the provider answers (with the prompt the service resolved). *)
Record Env := {
  answer_topic : ApiCall -> ApiResult (jsstring * jsstring);
  answer_group : ApiCall -> ApiResult (list Character * jsstring);
  answer_research : ApiCall -> ApiResult (ScheduledResponse * jsstring);
  answer_stream : ApiCall -> ApiResult (Response * jsstring) }.

(** ** The controller ([App.tsx])

    The controller works on the store, on the React state of the component
    ([confirmation], [isModalOpen]) and on the outside world.  [log] is a
    ghost record of what it did there: the requests it dispatched and the
    callbacks it invoked, oldest first.

    A handler is run to completion, its request answered by the
    environment: what another interaction could do to the store while the
    handler is suspended at an [await] is not part of this model. *)

Inductive Event :=
  | Dispatched (call : ApiCall)
  | OnStart
  | OnChunk (chunk : jsstring)
  | OnComplete (collectedCitations : list Citation)
  | OnSuccess.

(** The actions a rerun handler wraps. *)
Inductive RerunAction :=
  | TopicGeneration
  | Research
  | GroupGeneration
  | StartDiscussion
  | ArticleGeneration.

(** The [onConfirm] closures a confirmation can hold.  [snap] is the state
    of the render in which the closure was created: the values the closure
    reads for the arguments of its request. *)
Inductive Pending :=
  | PendingRerun (stepToRerun : Z) (actionFn : RerunAction) (snap : AppState)
  | PendingResetTopic
  | PendingSupplemental (snap : AppState) (confirmationShown : bool)
  | PendingDeleteCharacter (indexToDelete : Z)
  | PendingExtend (snap : AppState).

Record Confirmation := { message : jsstring; onConfirm : Pending }.

Record Controller := {
  store : AppState;
  confirmation : option Confirmation;
  isModalOpen : bool;
  log : list Event }.

Definition on_store (f : AppState -> AppState) (c : Controller) : Controller :=
  {| store := f (store c); confirmation := confirmation c;
     isModalOpen := isModalOpen c; log := log c |}.

Definition emit (ev : Event) (c : Controller) : Controller :=
  {| store := store c; confirmation := confirmation c;
     isModalOpen := isModalOpen c; log := log c ++ [ev] |}.

Definition setConfirmation (v : option Confirmation) (c : Controller)
  : Controller :=
  {| store := store c; confirmation := v;
     isModalOpen := isModalOpen c; log := log c |}.

Definition setIsModalOpen (v : bool) (c : Controller) : Controller :=
  {| store := store c; confirmation := confirmation c;
     isModalOpen := v; log := log c |}.

(** The [catch] and [finally] blocks shared by both call shapes. *)
Definition report_failure (stepNumber : Z) (e : Thrown)
  : AppState -> AppState :=
  setError (Direct (Some (failure_message stepNumber e))).

Definition cleanup (stepNumber : Z) (s : AppState) : AppState :=
  let s := setLoading (Functional (fun prev => <[stepNumber := false]> prev))
                      s in
  setPreparingStep (Direct None) s.

Definition announce (stepNumber : Z) (s : AppState) : AppState :=
  let s := setLoading (Functional (fun prev => <[stepNumber := true]> prev))
                      s in
  let s := setPreparingStep (Direct (Some stepNumber)) s in
  setError (Direct None) s.

Definition apply_prompt (prompt : jsstring)
           (promptUpdater : option (jsstring -> AppState -> AppState))
           (c : Controller) : Controller :=
  match promptUpdater with
  | Some updater => if truthy prompt then on_store (updater prompt) c else c
  | None => c
  end.

(** [handleApiCall]: the single-shot call. *)
Definition handleApiCall {T} (stepNumber : Z) (call : ApiCall)
           (apiFn : ApiResult (T * jsstring))
           (onSuccess : T -> AppState -> AppState)
           (promptUpdater : option (jsstring -> AppState -> AppState))
           (c : Controller) : Controller * bool :=
  let c := on_store (announce stepNumber) c in
  let c := emit (Dispatched call) c in
  match apiFn with
  | Resolved (result, prompt) =>
    let c := emit OnSuccess (on_store (onSuccess result) c) in
    let c := apply_prompt prompt promptUpdater c in
    (on_store (cleanup stepNumber) c, true)
  | Rejected e =>
    let c := on_store (report_failure stepNumber e) c in
    (on_store (cleanup stepNumber) c, false)
  end.

(** The three callbacks of a streaming call. *)
Record Callbacks := {
  onStart : AppState -> AppState;
  onChunk : jsstring -> AppState -> AppState;
  onComplete : list Citation -> AppState -> AppState }.

(** The state of the [for await] loop of [handleStreamApiCall]:
    [requestCitations] is the [collectedCitations] array of the service,
    which the generator mutates while the loop runs. *)
Record LoopState := {
  ctl : Controller;
  firstChunk : bool;
  requestCitations : list Citation }.

Definition consume_step (cb : Callbacks) (ls : LoopState) (st : StreamStep)
  : LoopState :=
  match st with
  | Yield chunk =>
    let c := if firstChunk ls
             then on_store (setPreparingStep (Direct None)) (ctl ls)
             else ctl ls in
    let c := emit (OnChunk chunk) (on_store (onChunk cb chunk) c) in
    {| ctl := c; firstChunk := false;
       requestCitations := requestCitations ls |}
  | Collect newCitations =>
    {| ctl := ctl ls; firstChunk := firstChunk ls;
       requestCitations := mergeCitations (requestCitations ls) newCitations |}
  end.

Definition consume (cb : Callbacks) (sts : list StreamStep) (ls : LoopState)
  : LoopState :=
  fold_left (consume_step cb) sts ls.

(** [handleStreamApiCall] up to the [await streamApiFn()]. *)
Definition stream_begin (stepNumber : Z) (call : ApiCall) (cb : Callbacks)
           (c : Controller) : Controller :=
  let c := on_store (announce stepNumber) c in
  let c := emit OnStart (on_store (onStart cb) c) in
  emit (Dispatched call) c.

(** The loop entered once the service has resolved to [r]. *)
Definition stream_enter (r : StreamResult)
           (promptUpdater : option (jsstring -> AppState -> AppState))
           (c : Controller) : LoopState :=
  {| ctl := apply_prompt (prompt r) promptUpdater c;
     firstChunk := true;
     requestCitations := [] |}.

(** What follows the loop: [onComplete], or the [catch]; then [finally]. *)
Definition stream_end (stepNumber : Z) (cb : Callbacks) (r : StreamResult)
           (ls : LoopState) : Controller * bool :=
  match ending (stream r) with
  | Exhausted =>
    let collectedCitations :=
      if shares_citations r then requestCitations ls else [] in
    let c := emit (OnComplete collectedCitations)
                  (on_store (onComplete cb collectedCitations) (ctl ls)) in
    (on_store (cleanup stepNumber) c, true)
  | Throws e =>
    let c := on_store (report_failure stepNumber e) (ctl ls) in
    (on_store (cleanup stepNumber) c, false)
  end.

Definition handleStreamApiCall (stepNumber : Z) (call : ApiCall)
           (streamApiFn : ApiResult StreamResult) (cb : Callbacks)
           (promptUpdater : option (jsstring -> AppState -> AppState))
           (c : Controller) : Controller * bool :=
  let c := stream_begin stepNumber call cb c in
  match streamApiFn with
  | Rejected e =>
    let c := on_store (report_failure stepNumber e) c in
    (on_store (cleanup stepNumber) c, false)
  | Resolved r =>
    stream_end stepNumber cb r
               (consume cb (steps (stream r)) (stream_enter r promptUpdater c))
  end.

(** The state of the loop after it has gone through the first [k] steps of
    the stream of [r]: a point the whole call passes through. *)
Definition stream_after (k : nat) (stepNumber : Z) (call : ApiCall)
           (r : StreamResult) (cb : Callbacks)
           (promptUpdater : option (jsstring -> AppState -> AppState))
           (c : Controller) : LoopState :=
  consume cb (take k (steps (stream r)))
          (stream_enter r promptUpdater (stream_begin stepNumber call cb c)).

(** *** The handlers of the five steps *)

Definition with_step1 (p : jsstring) (prev : Prompts) : Prompts :=
  {| step1 := p; step2 := step2 prev; step2Add := step2Add prev;
     step3 := step3 prev; step4 := step4 prev;
     step4Extend := step4Extend prev; step5 := step5 prev;
     step4System := step4System prev; step5System := step5System prev |}.

Definition with_step3 (p : jsstring) (prev : Prompts) : Prompts :=
  {| step1 := step1 prev; step2 := step2 prev; step2Add := step2Add prev;
     step3 := p; step4 := step4 prev;
     step4Extend := step4Extend prev; step5 := step5 prev;
     step4System := step4System prev; step5System := step5System prev |}.

Definition append_chunk (chunk : jsstring) : Updater jsstring :=
  Functional (fun prev => prev ++ chunk).

Definition research_callbacks : Callbacks := {|
  onStart := fun s => setCitations (Direct []) (setResearchData (Direct []) s);
  onChunk := fun chunk => setResearchData (append_chunk chunk);
  onComplete := fun newCitations => setCitations (Direct newCitations) |}.

Definition supplemental_heading (query : jsstring) : jsstring :=
  nl ++ nl ++ js "---" ++ nl ++ nl ++ js "## 補充概念：" ++ query ++ nl ++ nl.

Definition supplemental_callbacks (query : jsstring) : Callbacks := {|
  onStart :=
    setResearchData (Functional (fun prev => prev ++ supplemental_heading query));
  onChunk := fun chunk => setResearchData (append_chunk chunk);
  onComplete := fun newCitations =>
    setCitations (Functional (fun prev => mergeCitations prev newCitations)) |}.

Definition start_discussion_callbacks : Callbacks := {|
  onStart := setMeetingTranscript (Direct []);
  onChunk := fun chunk => setMeetingTranscript (append_chunk chunk);
  onComplete := fun _ s => s |}.

Definition extension_banner : jsstring :=
  nl ++ nl ++ js "---" ++ nl ++ nl ++ js "### 延伸討論" ++ nl ++ nl.

Definition extend_discussion_callbacks : Callbacks := {|
  onStart :=
    setMeetingTranscript (Functional (fun prev => prev ++ extension_banner));
  onChunk := fun chunk => setMeetingTranscript (append_chunk chunk);
  onComplete := fun _ s => s |}.

Definition article_callbacks : Callbacks := {|
  onStart := setFinalArticle (Direct []);
  onChunk := fun chunk => setFinalArticle (append_chunk chunk);
  onComplete := fun _ s => s |}.

Section Handlers.

Variable env : Env.

Definition performAITopicGeneration (snap : AppState) (c : Controller)
  : Controller :=
  let call := GenerateTopic (step1 (prompts snap)) in
  fst (handleApiCall 1 call (answer_topic env call)
         (fun result => setTopic (Direct result))
         (Some (fun p => setPrompts (Functional (with_step1 p)))) c).

Definition performResearch (snap : AppState) (c : Controller)
  : Controller :=
  let call := ConductResearchStream (topic snap) (step2 (prompts snap)) in
  fst (handleStreamApiCall 2 call
         (conductResearchStream (answer_research env call))
         research_callbacks None c).

Definition performGroupGeneration (snap : AppState) (c : Controller)
  : Controller :=
  let call := GenerateMeetingGroup (topic snap) (researchData snap)
                                   (step3 (prompts snap)) in
  fst (handleApiCall 3 call (answer_group env call)
         (fun result => setCharacters (Direct result))
         (Some (fun p => setPrompts (Functional (with_step3 p)))) c).

Definition performStartDiscussion (snap : AppState) (c : Controller)
  : Controller :=
  let call := StartDiscussionStream
                (topic snap) (researchData snap) (characters snap)
                (step4 (prompts snap)) (step4System (prompts snap)) in
  fst (handleStreamApiCall 4 call
         (createDiscussionStream (answer_stream env call))
         start_discussion_callbacks None c).

Definition performArticleGeneration (snap : AppState) (c : Controller)
  : Controller :=
  let call := GenerateFinalArticleStream
                (topic snap) (researchData snap) (meetingTranscript snap)
                (step5 (prompts snap)) (step5System (prompts snap)) in
  fst (handleStreamApiCall 5 call
         (createDiscussionStream (answer_stream env call))
         article_callbacks None c).

Definition run_action (actionFn : RerunAction) : AppState -> Controller
                                                 -> Controller :=
  match actionFn with
  | TopicGeneration => performAITopicGeneration
  | Research => performResearch
  | GroupGeneration => performGroupGeneration
  | StartDiscussion => performStartDiscussion
  | ArticleGeneration => performArticleGeneration
  end.

Definition default_rerun_message (stepToRerun : Z) : jsstring :=
  js "這將會重新執行步驟 " ++ js_of_Z stepToRerun
     ++ js " 並清除其後所有步驟的資料。確定要繼續嗎？".

(** [createRerunHandler(stepToRerun, actionFn, messageOverride)()]. *)
Definition createRerunHandler (stepToRerun : Z) (actionFn : RerunAction)
           (messageOverride : jsstring) (c : Controller) : Controller :=
  let isCompleted := isStepLogicallyCompleted (store c) stepToRerun in
  if isCompleted then
    setConfirmation
      (Some {| message := if truthy messageOverride then messageOverride
                          else default_rerun_message stepToRerun;
               onConfirm := PendingRerun stepToRerun actionFn (store c) |})
      c
  else run_action actionFn (store c) c.

Definition reset_topic_message : jsstring :=
  js "重新決定議題將會清除所有後續步驟的進度。確定要繼續嗎？".

Definition handleGenerateTopicAI : Controller -> Controller :=
  createRerunHandler 1 TopicGeneration reset_topic_message.

Definition handleConfirmAndAdvance (c : Controller) : Controller :=
  if negb (truthy (trim (topic (store c)))) then
    on_store (setError (Direct (Some (js "請先輸入一個議題。")))) c
  else
    let c := on_store confirmTopic c in
    let c := on_store (setStep (Direct 2)) c in
    on_store (setError (Direct None)) c.

Definition handleResetTopicConfirmation (c : Controller) : Controller :=
  setConfirmation
    (Some {| message := reset_topic_message; onConfirm := PendingResetTopic |})
    c.

Definition handleConductResearch : Controller -> Controller :=
  createRerunHandler 2 Research
    (js "這將會重新執行「資料研究」並清除所有現有研究資料、引用來源，以及其後所有步驟的資料。確定要繼續嗎？").

Definition performSupplementalResearchAction (snap : AppState)
           (confirmationShown : bool) (c : Controller) : Controller :=
  let c := on_store (resetStepsFrom 3) c in
  let query := trim (supplementalResearchQuery snap) in
  let call := SupplementalResearchStream query (researchData snap)
                                         (step2Add (prompts snap)) in
  let '(c, success) :=
    handleStreamApiCall 2 call
      (supplementalResearchStream (answer_stream env call))
      (supplemental_callbacks query) None c in
  let c := if success
           then on_store (setSupplementalResearchQuery (Direct [])) c
           else c in
  if confirmationShown then setConfirmation None c else c.

Definition handleSupplementalResearch (c : Controller) : Controller :=
  let s := store c in
  if negb (truthy (trim (supplementalResearchQuery s))) then c
  else
    let hasSubsequentProgress :=
      (0 <? Z.of_nat (length (characters s)))
      || truthy (trim (meetingTranscript s))
      || truthy (trim (finalArticle s)) in
    let confirmationShown :=
      match confirmation c with Some _ => true | None => false end in
    if hasSubsequentProgress then
      setConfirmation
        (Some {| message :=
                   js "補充研究將會重設「產生會議小組」、「開始研討」和「最終文章輸出」的進度。確定要繼續嗎？";
                 onConfirm := PendingSupplemental s confirmationShown |})
        c
    else performSupplementalResearchAction s confirmationShown c.

Definition handleGenerateGroup : Controller -> Controller :=
  createRerunHandler 3 GroupGeneration
    (js "這將會重新生成會議小組並清除其後所有步驟的資料。確定要繼續嗎？").

Definition handleSaveCharacter (character : Character) (c : Controller)
  : Controller :=
  let c := on_store (setCharacters
                       (Functional (fun prev => prev ++ [character]))) c in
  let c := on_store (resetStepsFrom 4) c in
  setIsModalOpen false c.

Definition handleDeleteCharacter (indexToDelete : Z) (c : Controller)
  : Controller :=
  setConfirmation
    (Some {| message :=
               js "刪除此角色將會重設「開始研討」和「最終文章輸出」的進度。確定要繼續嗎？";
             onConfirm := PendingDeleteCharacter indexToDelete |})
    c.

Definition handleStartDiscussion : Controller -> Controller :=
  createRerunHandler 4 StartDiscussion
    (js "這將會重新開始研討並清除其後所有步驟的資料。確定要繼續嗎？").

Definition handleExtendDiscussion (c : Controller) : Controller :=
  setConfirmation
    (Some {| message :=
               js "延長討論將會重設「最終文章輸出」的進度。確定要繼續嗎？";
             onConfirm := PendingExtend (store c) |})
    c.

Definition performExtendDiscussion (snap : AppState) (c : Controller)
  : Controller :=
  let c := on_store (resetStepsFrom 5) c in
  let call := ExtendDiscussionStream
                (topic snap) (researchData snap) (characters snap)
                (meetingTranscript snap)
                (step4Extend (prompts snap)) (step4System (prompts snap)) in
  let c := fst (handleStreamApiCall 4 call
                  (createDiscussionStream (answer_stream env call))
                  extend_discussion_callbacks None c) in
  setConfirmation None c.

Definition handleGenerateArticle : Controller -> Controller :=
  createRerunHandler 5 ArticleGeneration
    (js "這將會重新生成最終文章。確定要繼續嗎？").

(** Running the [onConfirm] closure of a confirmation. *)
Definition run_pending (p : Pending) (c : Controller) : Controller :=
  match p with
  | PendingRerun stepToRerun actionFn snap =>
    let c := on_store (resetStepsFrom stepToRerun) c in
    let c := run_action actionFn snap c in
    setConfirmation None c
  | PendingResetTopic =>
    setConfirmation None (on_store (resetStepsFrom 1) c)
  | PendingSupplemental snap confirmationShown =>
    performSupplementalResearchAction snap confirmationShown c
  | PendingDeleteCharacter indexToDelete =>
    let c := on_store (deleteCharacter indexToDelete) c in
    let c := on_store (resetStepsFrom 4) c in
    setConfirmation None c
  | PendingExtend snap => performExtendDiscussion snap c
  end.

(** The two buttons of [ConfirmationModal]. *)
Definition modal_onConfirm (c : Controller) : Controller :=
  match confirmation c with
  | Some conf => run_pending (onConfirm conf) c
  | None => c
  end.

Definition modal_onCancel (c : Controller) : Controller :=
  setConfirmation None c.

(** The extend button of step 4 is rendered only inside
    [isStepLogicallyCompleted(4) && (...)], and an [ActionButton] is
    disabled by [disabled || isLoading]. *)
Definition getStepStatus_locked (s : AppState) (currentStepNumber : Z)
  : bool :=
  negb (currentStepNumber <? step s) && negb (step s =? currentStepNumber).

Definition is_loading (s : AppState) (stepNumber : Z) : bool :=
  match loading s !! stepNumber with
  | Some b => b
  | None => false
  end.



(** The user's actions on the page. *)
Inductive UiAction :=
  | GenerateTopicAI
  | ConfirmAndAdvance
  | ResetTopicConfirmation
  | ConductResearch
  | SupplementalResearch
  | GenerateGroup
  | SaveCharacter (character : Character)
  | DeleteCharacter (indexToDelete : Z)
  | StartDiscussionClick
  | ExtendDiscussion
  | GenerateArticle
  | ModalConfirm
  | ModalCancel
  | Navigate (stepNum : Z)
  | ResetAll
  | EditTopic (v : jsstring)
  | EditSupplementalQuery (v : jsstring)
  | EditFinalArticle (v : jsstring)
  | EditPrompts (f : Prompts -> Prompts)
  | OpenAddCharacter
  | CloseAddCharacter
  | SaveFinalArticleEdit.

Definition handle (a : UiAction) (c : Controller) : Controller :=
  match a with
  | GenerateTopicAI => handleGenerateTopicAI c
  | ConfirmAndAdvance => handleConfirmAndAdvance c
  | ResetTopicConfirmation => handleResetTopicConfirmation c
  | ConductResearch => handleConductResearch c
  | SupplementalResearch => handleSupplementalResearch c
  | GenerateGroup => handleGenerateGroup c
  | SaveCharacter character => handleSaveCharacter character c
  | DeleteCharacter indexToDelete => handleDeleteCharacter indexToDelete c
  | StartDiscussionClick => handleStartDiscussion c
  | ExtendDiscussion => handleExtendDiscussion c
  | GenerateArticle => handleGenerateArticle c
  | ModalConfirm => modal_onConfirm c
  | ModalCancel => modal_onCancel c
  | Navigate stepNum => on_store (setStep (Direct stepNum)) c
  | ResetAll => on_store resetAll c
  | EditTopic v => on_store (setTopic (Direct v)) c
  | EditSupplementalQuery v =>
    on_store (setSupplementalResearchQuery (Direct v)) c
  | EditFinalArticle v => on_store (setFinalArticle (Direct v)) c
  | EditPrompts f => on_store (setPrompts (Functional f)) c
  | OpenAddCharacter => setIsModalOpen true c
  | CloseAddCharacter => setIsModalOpen false c
  | SaveFinalArticleEdit => on_store saveFinalArticleEdit c
  end.

End Handlers.

(** ** The persisted record ([persist] with [partialize]) *)

(** The values found under the keys of the store object. *)
Inductive Value :=
  | VNumber (v : Z)
  | VLoading (v : gmap Z bool)
  | VNullableNumber (v : option Z)
  | VNullableString (v : option jsstring)
  | VString (v : jsstring)
  | VBoolean (v : bool)
  | VCitations (v : list Citation)
  | VCharacters (v : list Character)
  | VPrompts (v : Prompts)
  | VFunction.

(** [Object.entries(state)]: the properties of the store object, in the
    order the initialiser declares them. *)
Definition entries (state : AppState) : list (string * Value) :=
  [ ("step", VNumber (step state)); ("setStep", VFunction);
    ("loading", VLoading (loading state)); ("setLoading", VFunction);
    ("preparingStep", VNullableNumber (preparingStep state));
    ("setPreparingStep", VFunction);
    ("error", VNullableString (error state)); ("setError", VFunction);
    ("topic", VString (topic state)); ("setTopic", VFunction);
    ("isTopicConfirmed", VBoolean (isTopicConfirmed state));
    ("confirmTopic", VFunction);
    ("researchData", VString (researchData state));
    ("setResearchData", VFunction);
    ("supplementalResearchQuery", VString (supplementalResearchQuery state));
    ("setSupplementalResearchQuery", VFunction);
    ("citations", VCitations (citations state)); ("setCitations", VFunction);
    ("characters", VCharacters (characters state));
    ("setCharacters", VFunction); ("addCharacter", VFunction);
    ("deleteCharacter", VFunction);
    ("meetingTranscript", VString (meetingTranscript state));
    ("setMeetingTranscript", VFunction);
    ("finalArticle", VString (finalArticle state));
    ("setFinalArticle", VFunction); ("saveFinalArticleEdit", VFunction);
    ("prompts", VPrompts (prompts state)); ("setPrompts", VFunction);
    ("resetStepsFrom", VFunction); ("resetAll", VFunction);
    ("appendToResearch", VFunction) ]%string.

Definition not_persisted : list string :=
  [ "loading"; "preparingStep"; "error"; "setLoading"; "setPreparingStep";
    "setError";
    "setStep"; "setTopic"; "confirmTopic"; "setResearchData";
    "setSupplementalResearchQuery"; "setCitations";
    "setCharacters"; "addCharacter"; "deleteCharacter";
    "setMeetingTranscript"; "setFinalArticle"; "setPrompts";
    "resetStepsFrom"; "resetAll"; "appendToResearch";
    "saveFinalArticleEdit" ]%string.

Definition partialize (state : AppState) : list (string * Value) :=
  List.filter
    (fun entry => negb (existsb (String.eqb (fst entry)) not_persisted))
    (entries state).

Definition persist_name : string := "long-form-ai-generator-storage".

(** The durable key-value store after a snapshot of [state]. *)
Definition persisted (state : AppState)
  : list (string * list (string * Value)) :=
  [ (persist_name, partialize state) ].

(** ** The vocabulary of the statements, and sample inputs *)

(** The keys of the loading map are step numbers. *)
Definition loading_keys_are_steps (s : AppState) : Prop :=
  forall k : Z, is_Some (loading s !! k) -> 1 <= k <= 5.

(** *** Citations without repeated uris *)

(** The entries of [l] whose uri is neither in [seen] nor carried by an
    earlier entry of [l], in the order of [l]. *)
Fixpoint first_seen (seen : list jsstring) (l : list Citation)
  : list Citation :=
  match l with
  | [] => []
  | c :: r =>
    if bool_decide (uri c ∈ seen) then first_seen seen r
    else c :: first_seen (uri c :: seen) r
  end.

(** [l] without the entries that repeat the uri of an earlier entry. *)
Definition distinct_by_uri (l : list Citation) : list Citation :=
  first_seen [] l.

(** The first entry of [l] with uri [u]. *)
Definition lookup_uri (u : jsstring) (l : list Citation) : option Citation :=
  List.find (fun c => jsstring_eqb (uri c) u) l.

(** *** The streaming calls and what they hand over *)

(** The five call sites of [handleStreamApiCall], with the buffer each one
    streams into. *)
Inductive StreamingCall :=
  | ResearchCall
  | SupplementalCall (query : jsstring)
  | StartDiscussionCall
  | ExtendDiscussionCall
  | ArticleCall.

Definition callbacks_of (kind : StreamingCall) : Callbacks :=
  match kind with
  | ResearchCall => research_callbacks
  | SupplementalCall query => supplemental_callbacks query
  | StartDiscussionCall => start_discussion_callbacks
  | ExtendDiscussionCall => extend_discussion_callbacks
  | ArticleCall => article_callbacks
  end.

Definition buffer_of (kind : StreamingCall) (s : AppState) : jsstring :=
  match kind with
  | ResearchCall | SupplementalCall _ => researchData s
  | StartDiscussionCall | ExtendDiscussionCall => meetingTranscript s
  | ArticleCall => finalArticle s
  end.

(** The fragments a stream hands to its consumer, in order. *)
Fixpoint fragments (sts : list StreamStep) : list jsstring :=
  match sts with
  | [] => []
  | Yield fragment :: r => fragment :: fragments r
  | Collect _ :: r => fragments r
  end.

(** The citations the generator pushes while the stream is consumed. *)
Fixpoint collected (sts : list StreamStep) : list Citation :=
  match sts with
  | [] => []
  | Yield _ :: r => collected r
  | Collect newCitations :: r => newCitations ++ collected r
  end.

(** The arguments of the [onChunk] invocations recorded in a log. *)
Fixpoint chunk_calls (l : list Event) : list jsstring :=
  match l with
  | [] => []
  | OnChunk chunk :: r => chunk :: chunk_calls r
  | _ :: r => chunk_calls r
  end.

(** The citations carried by the chunks of a response. *)
Definition carried (cs : list ResponseChunk) : list Citation :=
  flat_map extractCitations cs.

Definition preserves (P : AppState -> Prop) (f : AppState -> AppState)
  : Prop :=
  forall s, P s -> P (f s).

(** *** Sample inputs *)

Definition initial_controller : Controller :=
  {| store := initial_state; confirmation := None; isModalOpen := false;
     log := [] |}.

Definition sample_citation : Citation :=
  {| title := js "Survey"; uri := js "https://example.org/a" |}.

(** A state in which all five steps are populated, with stale loading
    flags. *)
Definition populated_state : AppState := {|
  step := 5;
  loading := <[3 := true]> (<[2 := false]> ∅);
  preparingStep := Some 3;
  error := Some (js "old");
  topic := js "X";
  isTopicConfirmed := true;
  researchData := js "notes";
  supplementalResearchQuery := js "more";
  citations := [sample_citation];
  characters := [{| name := js "N"; profession := js "P";
                    background := js "B" |}];
  meetingTranscript := js "N: hello";
  finalArticle := js "# Title";
  prompts := DEFAULT_PROMPTS |}.

Definition populated_controller : Controller :=
  {| store := populated_state; confirmation := None; isModalOpen := false;
     log := [] |}.


Definition sample_supplemental_call : ApiCall :=
  SupplementalResearchStream (js "more") (js "notes") (js "add").


(** A response of two chunks with text and one citation, then a failure. *)
Definition two_chunks_then_failure (e : Thrown) : Response :=
  {| chunks := [ {| chunk_text := js "A";
                    groundingChunks :=
                      [Some {| web_title := js "Survey";
                               web_uri := js "https://example.org/a" |}] |};
                 {| chunk_text := js "B"; groundingChunks := [] |} ];
     failure := Some e |}.

(** A response of one chunk, with text and one citation, ending
    normally. *)
Definition one_cited_chunk : Response :=
  {| chunks := [ {| chunk_text := js "A";
                    groundingChunks :=
                      [Some {| web_title := js "Survey";
                               web_uri := js "https://example.org/a" |}] |} ];
     failure := None |}.

(** A provider that answers every request at once. *)
Definition sample_env : Env := {|
  answer_topic := fun _ => Resolved (js "Y", js "p1");
  answer_group := fun _ => Resolved ([], js "p3");
  answer_research := fun _ =>
    Resolved ({| pulled := [(FinalStream, {| chunk_text := js "A";
                                             groundingChunks := [] |});
                            (ReturnedStream, {| chunk_text := js "B";
                                                groundingChunks := [] |});
                            (FinalStream, {| chunk_text := js "C";
                                             groundingChunks := [] |})];
                 pulled_failure := None |}, js "p2");
  answer_stream := fun _ => Resolved (one_cited_chunk, js "p4") |}.

(** *** What a streaming call catches *)

(** The value a streaming call ends up catching, if any: the rejection of
    the service, or the failure that ends the stream. *)
Definition raised (res : ApiResult StreamResult) : option Thrown :=
  match res with
  | Rejected e => Some e
  | Resolved r =>
    match ending (stream r) with
    | Throws e => Some e
    | Exhausted => None
    end
  end.

(** The fragments handed over before the end. *)
Definition delivered (res : ApiResult StreamResult) : list jsstring :=
  match res with
  | Rejected _ => []
  | Resolved r => fragments (steps (stream r))
  end.

(** [quiet s s']: from [s] to [s'] the current step has not moved and the
    loading map has gained no key other than step numbers. *)
Definition quiet (s s' : AppState) : Prop :=
  step s' = step s
  /\ forall k : Z,
      is_Some (loading s' !! k) -> is_Some (loading s !! k) \/ 1 <= k <= 5.

Definition is_quiet (f : AppState -> AppState) : Prop :=
  forall s, quiet s (f s).

(** *** Actions, persisted keys, extension request *)

(** The actions whose effect includes a write of the current step. *)
Definition moves_step (a : UiAction) : bool :=
  match a with
  | Navigate _ | ResetAll | ConfirmAndAdvance => true
  | _ => false
  end.

(** The keys [zustand] finds in the persisted record. *)
Definition persisted_keys (state : AppState) : list string :=
  map fst (partialize state).

Definition extend_call (snap : AppState) : ApiCall :=
  ExtendDiscussionStream
    (topic snap) (researchData snap) (characters snap)
    (meetingTranscript snap)
    (step4Extend (prompts snap)) (step4System (prompts snap)).


(** ** More of the view: step status, navigation, buttons, the character
       form *)

Inductive StepStatus :=
  | Locked
  | Active
  | Completed.

(** [getStepStatus] of [App]. *)
Definition getStepStatus (s : AppState) (currentStepNumber : Z) : StepStatus :=
  if currentStepNumber <? step s then Completed
  else if step s =? currentStepNumber then Active
  else Locked.

(** [getStatus] of [Sidebar], which receives the current step as a prop. *)
Definition getStatus (currentStep stepNum : Z) : StepStatus :=
  if stepNum <? currentStep then Completed
  else if stepNum =? currentStep then Active
  else Locked.

(** The copy of the completion policy that [Sidebar] keeps. *)
Definition isStepLogicallyCompletedForSidebar (s : AppState) (stepNumber : Z)
  : bool :=
  if stepNumber =? 1 then isTopicConfirmed s
  else if stepNumber =? 2 then
    (50 <? Z.of_nat (length (strip_whitespace (researchData s))))
    || (0 <? Z.of_nat (length (citations s)))
  else if stepNumber =? 3 then 0 <? Z.of_nat (length (characters s))
  else if stepNumber =? 4 then truthy (trim (meetingTranscript s))
  else if stepNumber =? 5 then truthy (trim (finalArticle s))
  else false.

(** [isClickable] of a sidebar entry. *)
Definition isClickable (s : AppState) (num : Z) : bool :=
  (num <=? step s)
  || ((step s <? num) && isStepLogicallyCompletedForSidebar s num).

(** The [onClick] of a sidebar entry. *)
Definition sidebar_click (num : Z) (c : Controller) : Controller :=
  if isClickable (store c) num then on_store (setStep (Direct num)) c else c.

(** An [ActionButton] is disabled by [disabled || isLoading]. *)
Definition ActionButton_disabled (disabled isLoading : bool) : bool :=
  disabled || isLoading.

Definition blank (v : jsstring) : bool := negb (truthy (trim v)).

(** The primary buttons of steps 2 to 5, as [App] renders them. *)
Definition research_button_disabled (s : AppState) : bool :=
  ActionButton_disabled
    (getStepStatus_locked s 2 || blank (topic s))
    (is_loading s 2 && blank (supplementalResearchQuery s)).

Definition group_button_disabled (s : AppState) : bool :=
  ActionButton_disabled
    (getStepStatus_locked s 3 || blank (topic s) || blank (researchData s))
    (is_loading s 3).

Definition discussion_button_disabled (s : AppState) : bool :=
  ActionButton_disabled
    (getStepStatus_locked s 4 || (Z.of_nat (length (characters s)) =? 0)
     || blank (topic s) || blank (researchData s))
    (is_loading s 4 && blank (meetingTranscript s)).

Definition article_button_disabled (s : AppState) : bool :=
  ActionButton_disabled
    (getStepStatus_locked s 5 || blank (topic s) || blank (researchData s)
     || blank (meetingTranscript s))
    (is_loading s 5).

Definition primary_button_disabled (s : AppState) (stepNumber : Z) : bool :=
  if stepNumber =? 2 then research_button_disabled s
  else if stepNumber =? 3 then group_button_disabled s
  else if stepNumber =? 4 then discussion_button_disabled s
  else if stepNumber =? 5 then article_button_disabled s
  else false.

(** The local state of [AddCharacterModal]. *)
Record CharacterForm := {
  form_name : jsstring;
  form_profession : jsstring;
  form_background : jsstring }.

Definition empty_form : CharacterForm :=
  {| form_name := []; form_profession := []; form_background := [] |}.

Record SaveOutcome := {
  form_after : CharacterForm;
  controller_after : Controller;
  alerted : bool }.

(** [handleSave] of [AddCharacterModal], with [onSave = handleSaveCharacter]
    and [onClose = () => setIsModalOpen(false)]. *)
Definition AddCharacterModal_handleSave (form : CharacterForm)
           (c : Controller) : SaveOutcome :=
  if truthy (form_name form) && truthy (form_profession form)
     && truthy (form_background form)
  then
    let c := handleSaveCharacter
               {| name := form_name form;
                  profession := form_profession form;
                  background := form_background form |} c in
    {| form_after := empty_form;
       controller_after := setIsModalOpen false c;
       alerted := false |}
  else {| form_after := form; controller_after := c; alerted := true |}.

(** The requests recorded in a log, oldest first. *)
Fixpoint dispatches (l : list Event) : list ApiCall :=
  match l with
  | [] => []
  | Dispatched call :: r => call :: dispatches r
  | _ :: r => dispatches r
  end.






(** The texts of the chunks that the returned generator of
    [conductResearchStream] pulled. *)
Definition returned_texts (ps : list (Consumer * ResponseChunk))
  : list jsstring :=
  flat_map (fun p : Consumer * ResponseChunk =>
              match p with
              | (ReturnedStream, chunk) => [chunk_text chunk]
              | (FinalStream, _) => []
              end) ps.

(** What [onStart] leaves in front of the fragments, for each call site. *)
Definition buffer_seed (kind : StreamingCall) (s : AppState) : jsstring :=
  match kind with
  | ResearchCall | StartDiscussionCall | ArticleCall => []
  | SupplementalCall query => researchData s ++ supplemental_heading query
  | ExtendDiscussionCall => meetingTranscript s ++ extension_banner
  end.

(** The request each rerun action issues, from the state its closure
    holds. *)
Definition request_of (actionFn : RerunAction) (snap : AppState) : ApiCall :=
  match actionFn with
  | TopicGeneration => GenerateTopic (step1 (prompts snap))
  | Research => ConductResearchStream (topic snap) (step2 (prompts snap))
  | GroupGeneration =>
    GenerateMeetingGroup (topic snap) (researchData snap)
                         (step3 (prompts snap))
  | StartDiscussion =>
    StartDiscussionStream (topic snap) (researchData snap) (characters snap)
                          (step4 (prompts snap)) (step4System (prompts snap))
  | ArticleGeneration =>
    GenerateFinalArticleStream
      (topic snap) (researchData snap) (meetingTranscript snap)
      (step5 (prompts snap)) (step5System (prompts snap))
  end.

(** The supplemental request, from the state the closure holds. *)
Definition supplemental_call (snap : AppState) : ApiCall :=
  SupplementalResearchStream (trim (supplementalResearchQuery snap))
                             (researchData snap) (step2Add (prompts snap)).

(** ** Properties of the store *)

Section StoreFacts.

Implicit Types (s : AppState) (fromStep k : Z) (m : gmap Z bool).

Lemma lookup_delete_steps n fromStep m k :
  delete_steps n fromStep m !! k
  = if bool_decide (fromStep <= k < fromStep + Z.of_nat n) then None
    else m !! k.
Proof.
  revert fromStep m. induction n as [|n IH]; intros fromStep m; simpl.
  - case_bool_decide; [lia | done].
  - rewrite IH. repeat case_bool_decide; try done; try lia.
    + destruct (decide (k = fromStep)) as [->|Hne].
      * by rewrite lookup_delete_eq.
      * lia.
    + rewrite lookup_delete_ne; [done | lia].
Qed.

(** What [resetStepsFrom] leaves in each property of the state. *)
Lemma resetStepsFrom_fields fromStep s :
  let s' := resetStepsFrom fromStep s in
  step s' = step s
  /\ prompts s' = prompts s
  /\ preparingStep s' = preparingStep s
  /\ error s' = None
  /\ loading s'
     = delete_steps (Z.to_nat (5 - fromStep + 1)) fromStep (loading s)
  /\ topic s' = (if fromStep <=? 1 then [] else topic s)
  /\ isTopicConfirmed s'
     = (if fromStep <=? 1 then false else isTopicConfirmed s)
  /\ researchData s' = (if fromStep <=? 2 then [] else researchData s)
  /\ supplementalResearchQuery s'
     = (if fromStep <=? 2 then [] else supplementalResearchQuery s)
  /\ citations s' = (if fromStep <=? 2 then [] else citations s)
  /\ characters s' = (if fromStep <=? 3 then [] else characters s)
  /\ meetingTranscript s'
     = (if fromStep <=? 4 then [] else meetingTranscript s)
  /\ finalArticle s' = (if fromStep <=? 5 then [] else finalArticle s).
Proof.
  destruct s. unfold resetStepsFrom, set_, merge_state. simpl.
  destruct (fromStep <=? 1), (fromStep <=? 2), (fromStep <=? 3),
    (fromStep <=? 4), (fromStep <=? 5); simpl; repeat split; reflexivity.
Qed.

End StoreFacts.

(** C1. For every [fromStep] between 1 and 5 and every state whose loading
    map is keyed by step numbers (populated or not), [resetStepsFrom
    fromStep] empties the entity of every step from [fromStep] on (with the
    supplemental query and the citations for step 2, the topic text and its
    confirmation for step 1), keeps the entities of the steps before
    [fromStep], removes every key [>= fromStep] from the loading map while
    keeping the keys below, and sets the error to null. *)
Theorem resetStepsFrom_clears_from_step (fromStep : Z) (s : AppState) :
  1 <= fromStep <= 5 ->
  loading_keys_are_steps s ->
  let s' := resetStepsFrom fromStep s in
  (fromStep <= 1 -> topic s' = [] /\ isTopicConfirmed s' = false)
  /\ (fromStep <= 2 ->
      researchData s' = [] /\ supplementalResearchQuery s' = []
      /\ citations s' = [])
  /\ (fromStep <= 3 -> characters s' = [])
  /\ (fromStep <= 4 -> meetingTranscript s' = [])
  /\ (fromStep <= 5 -> finalArticle s' = [])
  /\ (1 < fromStep ->
      topic s' = topic s /\ isTopicConfirmed s' = isTopicConfirmed s)
  /\ (2 < fromStep ->
      researchData s' = researchData s
      /\ supplementalResearchQuery s' = supplementalResearchQuery s
      /\ citations s' = citations s)
  /\ (3 < fromStep -> characters s' = characters s)
  /\ (4 < fromStep -> meetingTranscript s' = meetingTranscript s)
  /\ (forall k : Z, fromStep <= k -> loading s' !! k = None)
  /\ (forall k : Z, k < fromStep -> loading s' !! k = loading s !! k)
  /\ error s' = None.
Proof.
  intros Hrange Hkeys s'.
  destruct (resetStepsFrom_fields fromStep s)
    as (_ & _ & _ & He & Hl & Ht & Hc & Hr & Hq & Hci & Hch & Hm & Hf).
  fold s' in He, Hl, Ht, Hc, Hr, Hq, Hci, Hch, Hm, Hf.
  rewrite Ht, Hc, Hr, Hq, Hci, Hch, Hm, Hf, Hl, He.
  repeat split; intros;
    repeat match goal with
           | |- context [?a <=? ?b] => destruct (Z.leb_spec a b)
           end; try done; try lia.
  - rewrite lookup_delete_steps. case_bool_decide as Hin; [done|].
    destruct (loading s !! k) eqn:Hk; [|done].
    assert (1 <= k <= 5) by (apply Hkeys; eauto). lia.
  - rewrite lookup_delete_steps. case_bool_decide; [lia | done].
Qed.

Lemma resetStepsFrom_clears_from_step_witness :
  characters (resetStepsFrom 3 populated_state) = []
  /\ meetingTranscript (resetStepsFrom 3 populated_state) = []
  /\ finalArticle (resetStepsFrom 3 populated_state) = []
  /\ researchData (resetStepsFrom 3 populated_state) = js "notes"
  /\ topic (resetStepsFrom 3 populated_state) = js "X"
  /\ loading (resetStepsFrom 3 populated_state) !! 3 = None
  /\ loading (resetStepsFrom 3 populated_state) !! 2 = Some false
  /\ error (resetStepsFrom 3 populated_state) = None.
Proof.
  assert (Hkeys : loading_keys_are_steps populated_state).
  { intros k [v Hk]. simpl in Hk.
    destruct (decide (k = 3)) as [->|H3]; [lia|].
    destruct (decide (k = 2)) as [->|H2]; [lia|].
    rewrite !lookup_insert_ne, lookup_empty in Hk by done. discriminate Hk. }
  destruct (resetStepsFrom_clears_from_step 3 populated_state
              ltac:(lia) Hkeys)
    as (_ & _ & Hch & Hm & Hf & Ht & Hr & _ & _ & Hl & Hl' & He).
  split; [apply Hch; lia|].
  split; [apply Hm; lia|].
  split; [apply Hf; lia|].
  split; [apply Hr; lia|].
  split; [apply Ht; lia|].
  split; [apply Hl; lia|].
  split; [etrans; [apply Hl'; lia | reflexivity] | exact He].
Defined.

(** C10. [resetStepsFrom] never moves the current step, never touches the
    prompts and never clears the preparing marker, whatever [fromStep]. *)
Theorem resetStepsFrom_keeps_step_prompts_preparing
        (fromStep : Z) (s : AppState) :
  step (resetStepsFrom fromStep s) = step s
  /\ prompts (resetStepsFrom fromStep s) = prompts s
  /\ preparingStep (resetStepsFrom fromStep s) = preparingStep s.
Proof.
  destruct (resetStepsFrom_fields fromStep s) as (H1 & H2 & H3 & _).
  auto.
Qed.

(** ** The citation merge: order, uniqueness, first title kept *)

Section MergeFacts.

Implicit Types (A B l acc : list Citation) (seen : list jsstring)
         (c : Citation) (u : jsstring).

Lemma has_uri_true u acc : has_uri u acc = true <-> u ∈ uri <$> acc.
Proof.
  unfold has_uri, jsstring_eqb. induction acc as [|d acc IH]; simpl.
  - split; [done | by intros ?%elem_of_nil].
  - rewrite orb_true_iff, IH, elem_of_cons, bool_decide_eq_true.
    naive_solver.
Qed.

Lemma has_uri_false u acc : has_uri u acc = false <-> u ∉ uri <$> acc.
Proof.
  rewrite <- has_uri_true. destruct (has_uri u acc); naive_solver.
Qed.

Lemma mergeCitations_first_seen l acc seen :
  (forall u, u ∈ seen <-> u ∈ uri <$> acc) ->
  mergeCitations acc l = acc ++ first_seen seen l.
Proof.
  unfold mergeCitations. revert acc seen.
  induction l as [|c r IH]; intros acc seen Hseen; simpl.
  - by rewrite app_nil_r.
  - unfold push_new at 2. destruct (has_uri (uri c) acc) eqn:Hc.
    + apply has_uri_true in Hc. rewrite bool_decide_eq_true_2.
      * by apply IH.
      * by apply Hseen.
    + apply has_uri_false in Hc. rewrite bool_decide_eq_false_2.
      * rewrite (IH (acc ++ [c]) (uri c :: seen)).
        -- by rewrite <- app_assoc.
        -- intros u. rewrite fmap_app, elem_of_app, elem_of_cons. simpl.
           rewrite list_elem_of_singleton, Hseen. naive_solver.
      * by rewrite Hseen.
Qed.

Lemma elem_of_first_seen_uri u seen l :
  u ∈ uri <$> first_seen seen l <-> u ∈ uri <$> l /\ u ∉ seen.
Proof.
  revert seen. induction l as [|c r IH]; intros seen; simpl.
  - split; [by intros ?%elem_of_nil | by intros [?%elem_of_nil _]].
  - case_bool_decide as Hc; simpl.
    + rewrite IH, elem_of_cons. naive_solver.
    + rewrite !elem_of_cons, IH, elem_of_cons.
      destruct (decide (u = uri c)); naive_solver.
Qed.

Lemma first_seen_NoDup seen l : NoDup (uri <$> first_seen seen l).
Proof.
  revert seen. induction l as [|c r IH]; intros seen; simpl.
  - constructor.
  - case_bool_decide; simpl; [apply IH|].
    constructor; [|apply IH].
    rewrite elem_of_first_seen_uri, elem_of_cons. naive_solver.
Qed.

Lemma first_seen_sublist seen l : sublist (first_seen seen l) l.
Proof.
  revert seen. induction l as [|c r IH]; intros seen; simpl.
  - constructor.
  - case_bool_decide; [apply sublist_cons | apply sublist_skip]; apply IH.
Qed.

Lemma first_seen_filter l seen' seen :
  first_seen (seen' ++ seen) l
  = first_seen seen' (filter (fun c => uri c ∉ seen) l).
Proof.
  revert seen'. induction l as [|c r IH]; intros seen'; simpl; [done|].
  destruct (decide (uri c ∈ seen)) as [Hin|Hout].
  - rewrite filter_cons_False by naive_solver.
    rewrite bool_decide_eq_true_2 by (rewrite elem_of_app; auto).
    apply IH.
  - rewrite filter_cons_True by done. simpl.
    destruct (decide (uri c ∈ seen')) as [Hin'|Hout'].
    + rewrite !bool_decide_eq_true_2; [apply IH | done |].
      rewrite elem_of_app; auto.
    + rewrite !bool_decide_eq_false_2; [| done |].
      * f_equal. apply (IH (uri c :: seen')).
      * rewrite elem_of_app. naive_solver.
Qed.

Lemma first_seen_id l seen :
  NoDup (uri <$> l) -> (forall u, u ∈ uri <$> l -> u ∉ seen) ->
  first_seen seen l = l.
Proof.
  revert seen. induction l as [|c r IH]; intros seen Hnd Hsep; simpl;
    [done|].
  apply NoDup_cons in Hnd as [Hc Hnd].
  rewrite bool_decide_eq_false_2.
  - f_equal. apply IH; [done|].
    intros u Hu. rewrite elem_of_cons. intros [->|Hin]; [done|].
    revert Hin. apply Hsep. simpl. rewrite elem_of_cons. auto.
  - apply Hsep. simpl. rewrite elem_of_cons. auto.
Qed.

Lemma lookup_uri_app u l1 l2 :
  lookup_uri u (l1 ++ l2)
  = match lookup_uri u l1 with
    | Some c => Some c
    | None => lookup_uri u l2
    end.
Proof.
  unfold lookup_uri. induction l1 as [|d l1 IH]; simpl; [done|].
  destruct (jsstring_eqb (uri d) u); [done | apply IH].
Qed.

Lemma lookup_uri_None u l : u ∉ uri <$> l -> lookup_uri u l = None.
Proof.
  unfold lookup_uri, jsstring_eqb. induction l as [|d l IH]; simpl;
    [done|].
  rewrite elem_of_cons. intros Hn. rewrite bool_decide_eq_false_2.
  - apply IH. naive_solver.
  - naive_solver.
Qed.

Lemma lookup_uri_first_seen c seen l :
  c ∈ first_seen seen l -> lookup_uri (uri c) l = Some c.
Proof.
  revert seen. induction l as [|d r IH]; intros seen; simpl.
  - by intros ?%elem_of_nil.
  - unfold lookup_uri, jsstring_eqb in *. simpl.
    case_bool_decide as Hd.
    + intros Hc. assert (Hu : uri c ∈ uri <$> first_seen seen r)
        by (apply list_elem_of_fmap; eauto).
      apply elem_of_first_seen_uri in Hu as [_ Hu].
      rewrite bool_decide_eq_false_2 by congruence. by eapply IH.
    + rewrite elem_of_cons. intros [->|Hc].
      * by rewrite bool_decide_eq_true_2.
      * assert (Hu : uri c ∈ uri <$> first_seen (uri d :: seen) r)
          by (apply list_elem_of_fmap; eauto).
        apply elem_of_first_seen_uri in Hu as [_ Hu].
        rewrite elem_of_cons in Hu.
        rewrite bool_decide_eq_false_2 by naive_solver. by eapply IH.
Qed.

End MergeFacts.

(** C3. Merging [A] into the empty set and then [B] into the result gives
    [A] without its repeated uris, in the order of [A], followed by the
    entries of [B] whose uri does not occur in [A], without repeated uris,
    in the order of [B] (both are [A] and that part of [B] themselves when
    they repeat no uri); every uri of [A] and [B] occurs exactly once; the
    entry kept for a uri is the first one with that uri in [A] then [B], so
    the first-seen title is kept.  [appendToResearch] stores this merge. *)
Theorem merge_twice_order_unique_first_title (A B : list Citation) :
  let R := mergeCitations (mergeCitations [] A) B in
  R = distinct_by_uri A
      ++ distinct_by_uri (filter (fun c => uri c ∉ uri <$> A) B)
  /\ sublist (distinct_by_uri A) A
  /\ (NoDup (uri <$> A) -> distinct_by_uri A = A)
  /\ (NoDup (uri <$> B) ->
      distinct_by_uri (filter (fun c => uri c ∉ uri <$> A) B)
      = filter (fun c => uri c ∉ uri <$> A) B)
  /\ NoDup (uri <$> R)
  /\ (forall u, u ∈ uri <$> R <-> u ∈ uri <$> (A ++ B))
  /\ (forall c, c ∈ R -> lookup_uri (uri c) (A ++ B) = Some c)
  /\ (forall s t1 t2,
        citations s = [] ->
        citations (appendToResearch t2 B (appendToResearch t1 A s)) = R).
Proof.
  intros R.
  assert (HA : mergeCitations [] A = distinct_by_uri A).
  { rewrite (mergeCitations_first_seen A [] []); [done|]. by intros u. }
  assert (HR : R = distinct_by_uri A ++ first_seen (uri <$> A) B).
  { unfold R. rewrite HA.
    rewrite (mergeCitations_first_seen B _ (uri <$> A)); [done|].
    intros u. unfold distinct_by_uri.
    rewrite elem_of_first_seen_uri. split; [|naive_solver].
    intros Hu. split; [done | by intros ?%elem_of_nil]. }
  assert (HB : first_seen (uri <$> A) B
               = distinct_by_uri (filter (fun c => uri c ∉ uri <$> A) B)).
  { unfold distinct_by_uri. by rewrite <- first_seen_filter. }
  split; [by rewrite HR, HB|].
  split; [apply first_seen_sublist|].
  split.
  { intros Hnd. apply first_seen_id; [done|]. by intros u _ ?%elem_of_nil. }
  split.
  { intros Hnd. apply first_seen_id.
    - apply (sublist_NoDup _ (uri <$> B)); [exact Hnd|].
      apply fmap_sublist, sublist_filter.
    - by intros u _ ?%elem_of_nil. }
  split.
  { rewrite HR, fmap_app. apply NoDup_app. split; [apply first_seen_NoDup|].
    split; [|apply first_seen_NoDup].
    intros u Hu. rewrite elem_of_first_seen_uri.
    unfold distinct_by_uri in Hu. apply elem_of_first_seen_uri in Hu.
    naive_solver. }
  split.
  { intros u. rewrite HR, !fmap_app, !elem_of_app.
    unfold distinct_by_uri. rewrite !elem_of_first_seen_uri.
    split; [naive_solver|].
    intros [Hu|Hu].
    - left. split; [done | by intros ?%elem_of_nil].
    - destruct (decide (u ∈ uri <$> A)) as [Hin|Hout].
      + left. split; [done | by intros ?%elem_of_nil].
      + by right. }
  split.
  { intros c. rewrite HR, elem_of_app, lookup_uri_app. intros [Hc|Hc].
    - unfold distinct_by_uri in Hc.
      by rewrite (lookup_uri_first_seen c [] A).
    - assert (Hu : uri c ∈ uri <$> first_seen (uri <$> A) B)
        by (apply list_elem_of_fmap; eauto).
      apply elem_of_first_seen_uri in Hu as [_ Hu].
      rewrite lookup_uri_None by done.
      by eapply lookup_uri_first_seen. }
  intros s t1 t2 Hs. destruct s. simpl in Hs. subst.
  reflexivity.
Qed.

Lemma merge_twice_order_unique_first_title_witness :
  let a1 := {| title := js "first"; uri := js "u1" |} in
  let a2 := {| title := js "second"; uri := js "u2" |} in
  let b1 := {| title := js "other title"; uri := js "u1" |} in
  let b2 := {| title := js "third"; uri := js "u3" |} in
  mergeCitations (mergeCitations [] [a1; a2; a1]) [b1; b2; b2] = [a1; a2; b2]
  /\ lookup_uri (js "u1") ([a1; a2; a1] ++ [b1; b2; b2]) = Some a1.
Proof.
  intros a1 a2 b1 b2.
  destruct (merge_twice_order_unique_first_title [a1; a2; a1] [b1; b2; b2])
    as (HR & _ & _ & _ & _ & _ & Hfirst & _).
  split.
  - etrans; [exact HR | reflexivity].
  - apply (Hfirst a1). rewrite HR. apply list_elem_of_In. simpl. auto.
Defined.

(** ** Properties of the streaming call *)

Section StreamFacts.

Implicit Types (kind : StreamingCall) (cb : Callbacks)
         (sts : list StreamStep) (ls : LoopState) (c : Controller)
         (stepNumber : Z) (r : StreamResult).

Lemma chunk_calls_app l1 l2 :
  chunk_calls (l1 ++ l2) = chunk_calls l1 ++ chunk_calls l2.
Proof.
  induction l1 as [|ev l1 IH]; simpl; [done|].
  destruct ev; simpl; by rewrite IH.
Qed.

Lemma chunk_calls_OnChunk fs : chunk_calls (OnChunk <$> fs) = fs.
Proof. induction fs as [|f fs IH]; simpl; [done | by f_equal]. Qed.

Lemma consume_app cb sts1 sts2 ls :
  consume cb (sts1 ++ sts2) ls = consume cb sts2 (consume cb sts1 ls).
Proof. apply fold_left_app. Qed.

(** The whole call goes through [stream_after k]. *)
Lemma consume_through k cb sts ls :
  consume cb sts ls = consume cb (drop k sts) (consume cb (take k sts) ls).
Proof. by rewrite <- consume_app, take_drop. Qed.

Lemma consume_preserves (P : AppState -> Prop) cb sts ls :
  preserves P (setPreparingStep (Direct None)) ->
  (forall chunk, preserves P (onChunk cb chunk)) ->
  P (store (ctl ls)) -> P (store (ctl (consume cb sts ls))).
Proof.
  intros Hp Hc. revert ls. induction sts as [|st sts IH]; intros ls HP;
    [done|].
  apply IH. destruct st as [chunk|cs]; simpl; [|done].
  apply Hc. destruct (firstChunk ls); simpl; auto.
Qed.

Lemma consume_log cb sts ls :
  log (ctl (consume cb sts ls))
  = log (ctl ls) ++ (OnChunk <$> fragments sts).
Proof.
  revert ls. induction sts as [|st sts IH]; intros ls; simpl.
  - by rewrite app_nil_r.
  - unfold consume in *. rewrite IH.
    destruct st as [chunk|cs]; simpl; [|done].
    rewrite <- app_assoc. by destruct (firstChunk ls).
Qed.

Lemma consume_requestCitations cb sts ls :
  requestCitations (consume cb sts ls)
  = mergeCitations (requestCitations ls) (collected sts).
Proof.
  revert ls. induction sts as [|st sts IH]; intros ls; simpl; [done|].
  unfold consume in *. rewrite IH.
  destruct st as [chunk|cs]; simpl; [done|].
  unfold mergeCitations. by rewrite fold_left_app.
Qed.

Lemma consume_buffer kind sts ls :
  buffer_of kind (store (ctl (consume (callbacks_of kind) sts ls)))
  = buffer_of kind (store (ctl ls)) ++ concat (fragments sts).
Proof.
  revert ls. induction sts as [|st sts IH]; intros ls; simpl.
  - by rewrite app_nil_r.
  - unfold consume in *. rewrite IH.
    destruct st as [chunk|cs]; simpl; [|done].
    rewrite app_assoc. f_equal.
    destruct ls as [[s ? ? ?] [] ?]; destruct s, kind; reflexivity.
Qed.


Lemma consume_citations kind sts ls :
  citations (store (ctl (consume (callbacks_of kind) sts ls)))
  = citations (store (ctl ls)).
Proof.
  apply (consume_preserves
           (fun s => citations s = citations (store (ctl ls)))).
  - intros s Hs. by destruct s.
  - intros chunk s Hs. by destruct s, kind.
  - done.
Qed.

Lemma collected_supplemental cs :
  collected (flat_map streamGenerator_chunk cs) = carried cs.
Proof.
  unfold carried. induction cs as [|ch cs IH]; simpl; [done|].
  unfold streamGenerator_chunk at 1.
  destruct (truthy (chunk_text ch)); simpl; by rewrite IH.
Qed.

Lemma collected_conductResearch ps :
  collected (flat_map conductResearch_chunk ps) = carried (snd <$> ps).
Proof.
  unfold carried. induction ps as [|[who ch] ps IH]; simpl; [done|].
  destruct who; simpl; [by rewrite IH|].
  unfold streamGenerator_chunk at 1.
  destruct (truthy (chunk_text ch)); simpl; by rewrite IH.
Qed.

(** The store when the call is over, in terms of the store the loop
    leaves. *)
Lemma stream_end_fields stepNumber cb r ls :
  let out := stream_end stepNumber cb r ls in
  let s := store (ctl ls) in
  let s' := store (fst out) in
  preparingStep s' = None
  /\ loading s' !! stepNumber = Some false
  /\ match ending (stream r) with
     | Exhausted =>
       snd out = true
       /\ exists s1,
           s1 = onComplete cb (if shares_citations r
                               then requestCitations ls else []) s
           /\ error s' = error s1 /\ citations s' = citations s1
           /\ researchData s' = researchData s1
           /\ meetingTranscript s' = meetingTranscript s1
           /\ finalArticle s' = finalArticle s1
     | Throws e =>
       snd out = false
       /\ error s' = Some (failure_message stepNumber e)
       /\ citations s' = citations s
       /\ researchData s' = researchData s
       /\ meetingTranscript s' = meetingTranscript s
       /\ finalArticle s' = finalArticle s
     end.
Proof.
  unfold stream_end. destruct (ending (stream r)) as [|e]; simpl.
  - set (s1 := onComplete cb _ _). destruct s1 eqn:Hs1. simpl.
    rewrite lookup_insert_eq. repeat split; try done.
    exists s1. rewrite Hs1. by repeat split.
  - destruct (store (ctl ls)). simpl.
    rewrite lookup_insert_eq. by repeat split.
Qed.

End StreamFacts.

Section StreamTheorems.

Implicit Types (kind : StreamingCall) (c : Controller) (stepNumber : Z)
         (r : StreamResult) (call : ApiCall).

Lemma buffer_of_ext kind (s s1 : AppState) :
  researchData s = researchData s1 ->
  meetingTranscript s = meetingTranscript s1 ->
  finalArticle s = finalArticle s1 ->
  buffer_of kind s = buffer_of kind s1.
Proof. by destruct kind. Qed.

Lemma buffer_onComplete kind cits (s : AppState) :
  buffer_of kind (onComplete (callbacks_of kind) cits s) = buffer_of kind s.
Proof. by destruct s, kind. Qed.



(** A call whose stream ends normally: what it leaves. *)
Lemma stream_success kind stepNumber call r c :
  ending (stream r) = Exhausted ->
  let cb := callbacks_of kind in
  let out := handleStreamApiCall stepNumber call (Resolved r) cb None c in
  snd out = true
  /\ buffer_of kind (store (fst out))
     = buffer_of kind (store (stream_begin stepNumber call cb c))
       ++ concat (fragments (steps (stream r)))
  /\ exists cits,
      log (fst out)
      = log c ++ [OnStart; Dispatched call]
              ++ (OnChunk <$> fragments (steps (stream r)))
              ++ [OnComplete cits].
Proof.
  intros Hend cb out. unfold out, handleStreamApiCall.
  set (ls := consume cb _ _).
  pose proof (stream_end_fields stepNumber cb r ls) as (_ & _ & H).
  rewrite Hend in H. destruct H as (Hok & s1 & Hs1 & _ & _ & Hr & Hm & Hf).
  split; [done|]. split.
  - rewrite (buffer_of_ext kind _ s1 Hr Hm Hf), Hs1.
    unfold cb. rewrite buffer_onComplete. unfold ls, cb.
    by rewrite consume_buffer.
  - unfold stream_end. rewrite Hend. simpl. eexists.
    unfold ls. rewrite consume_log. simpl.
    by rewrite <- !app_assoc.
Qed.

End StreamTheorems.



(** *** Failure of a streaming call *)

Lemma chunk_calls_begin (stepNumber : Z) (call : ApiCall) (cb : Callbacks)
      (c : Controller) :
  chunk_calls (log (stream_begin stepNumber call cb c)) = chunk_calls (log c).
Proof.
  unfold stream_begin. simpl. rewrite !chunk_calls_app. simpl.
  by rewrite !app_nil_r.
Qed.

Lemma stream_failure (kind : StreamingCall) (stepNumber : Z) (call : ApiCall)
      (res : ApiResult StreamResult) (c : Controller) (e : Thrown) :
  raised res = Some e ->
  let cb := callbacks_of kind in
  let before := stream_begin stepNumber call cb c in
  let out := handleStreamApiCall stepNumber call res cb None c in
  snd out = false
  /\ buffer_of kind (store (fst out))
     = buffer_of kind (store before) ++ concat (delivered res)
  /\ chunk_calls (log (fst out)) = chunk_calls (log c) ++ delivered res
  /\ loading (store (fst out)) !! stepNumber = Some false
  /\ preparingStep (store (fst out)) = None
  /\ error (store (fst out)) = Some (failure_message stepNumber e)
  /\ citations (store (fst out)) = citations (store before).
Proof.
  intros Hraised cb before out. unfold out, handleStreamApiCall.
  destruct res as [r|e']; simpl in Hraised.
  - destruct (ending (stream r)) as [|e'] eqn:Hend; [done|].
    injection Hraised as ->.
    set (ls := consume cb _ _).
    pose proof (stream_end_fields stepNumber cb r ls) as (Hp & Hl & H).
    rewrite Hend in H. destruct H as (Hok & He & Hc & Hr & Hm & Hf).
    assert (Hlog : log (fst (stream_end stepNumber cb r ls)) = log (ctl ls))
      by (unfold stream_end; by rewrite Hend).
    repeat split; try done.
    + rewrite (buffer_of_ext kind _ _ Hr Hm Hf). unfold ls, cb.
      by rewrite consume_buffer.
    + rewrite Hlog. unfold ls. rewrite consume_log, chunk_calls_app.
      rewrite chunk_calls_OnChunk. f_equal. apply chunk_calls_begin.
    + rewrite Hc. unfold ls, cb. by rewrite consume_citations.
  - injection Hraised as ->. simpl.
    destruct (onStart cb (announce stepNumber (store c))). simpl.
    rewrite lookup_insert_eq, !app_nil_r.
    repeat split; try done; try (by destruct kind).
    apply (chunk_calls_begin stepNumber call cb c).
Qed.

Lemma step_failure_message_head (stepNumber : Z) (m : jsstring) :
  exists rest, step_failure_message stepNumber m = 27493%N :: rest.
Proof. eexists. reflexivity. Qed.

(** C6 (as the code has it). A streaming call that catches a thrown value,
    the service rejecting or the stream failing after some fragments, keeps
    in the buffer what [onChunk] wrote for the fragments handed over, ends
    with [loading[stepNumber]] false and the preparing marker null, and
    sets the error to a message: the quota message when the value is an
    [Error] whose message contains "429" or "RESOURCE_EXHAUSTED"; for any
    other [Error], the message with the step number and the underlying
    message; for a value that is not an [Error], the fixed unknown-error
    message. *)
Theorem stream_failure_keeps_partial_output
        (kind : StreamingCall) (stepNumber : Z) (call : ApiCall)
        (res : ApiResult StreamResult) (c : Controller) (e : Thrown) :
  raised res = Some e ->
  let cb := callbacks_of kind in
  let before := stream_begin stepNumber call cb c in
  let out := handleStreamApiCall stepNumber call res cb None c in
  snd out = false
  /\ buffer_of kind (store (fst out))
     = buffer_of kind (store before) ++ concat (delivered res)
  /\ chunk_calls (log (fst out)) = chunk_calls (log c) ++ delivered res
  /\ loading (store (fst out)) !! stepNumber = Some false
  /\ preparingStep (store (fst out)) = None
  /\ error (store (fst out)) = Some (failure_message stepNumber e)
  /\ (forall m,
        e = ErrorObj m ->
        includes (js "429") m || includes (js "RESOURCE_EXHAUSTED") m = true ->
        failure_message stepNumber e = quota_message)
  /\ (forall m,
        e = ErrorObj m ->
        includes (js "429") m || includes (js "RESOURCE_EXHAUSTED") m = false ->
        failure_message stepNumber e = step_failure_message stepNumber m)
  /\ (e = NonError -> failure_message stepNumber e = unknown_error_message).
Proof.
  intros Hraised cb before out.
  destruct (stream_failure kind stepNumber call res c e Hraised)
    as (H1 & H2 & H3 & H4 & H5 & H6 & _).
  repeat split; try done.
  - intros m -> Hq. unfold failure_message. simpl. by rewrite Hq.
  - intros m -> Hq. unfold failure_message. simpl. by rewrite Hq.
  - by intros ->.
Qed.

Lemma stream_failure_keeps_partial_output_witness :
  let out := handleStreamApiCall 2 sample_supplemental_call
               (supplementalResearchStream
                  (Resolved (two_chunks_then_failure (ErrorObj (js "reset")),
                             js "add")))
               (supplemental_callbacks (js "more")) None
               populated_controller in
  researchData (store (fst out))
  = js "notes" ++ supplemental_heading (js "more") ++ js "AB"
  /\ loading (store (fst out)) !! 2 = Some false
  /\ preparingStep (store (fst out)) = None
  /\ error (store (fst out)) = Some (js "步驟 2 失敗: reset").
Proof.
  destruct (stream_failure_keeps_partial_output
              (SupplementalCall (js "more")) 2 sample_supplemental_call
              (supplementalResearchStream
                 (Resolved (two_chunks_then_failure (ErrorObj (js "reset")),
                            js "add")))
              populated_controller (ErrorObj (js "reset")) eq_refl)
    as (_ & Hbuf & _ & Hl & Hp & He & _).
  split; [etrans; [exact Hbuf | reflexivity]|].
  split; [exact Hl|]. split; [exact Hp | exact He].
Defined.

(** A thrown value that is not an [Error] is reported by the fixed
    unknown-error message, which is neither the quota message nor a message
    carrying the step number. *)
Lemma non_error_failure_message_lacks_step :
  let out := handleStreamApiCall 2 sample_supplemental_call
               (supplementalResearchStream
                  (Resolved (two_chunks_then_failure NonError, js "add")))
               (supplemental_callbacks (js "more")) None
               populated_controller in
  snd out = false
  /\ error (store (fst out)) = Some unknown_error_message
  /\ unknown_error_message <> quota_message
  /\ forall m, unknown_error_message <> step_failure_message 2 m.
Proof.
  repeat split.
  - intros H. vm_compute in H. discriminate H.
  - intros m H. destruct (step_failure_message_head 2 m) as [rest Hrest].
    rewrite Hrest in H. vm_compute in H. discriminate H.
Qed.

(** *** Citations during a research call *)

Lemma citations_begin_research (call : ApiCall) (c : Controller) :
  citations (store (stream_begin 2 call research_callbacks c)) = [].
Proof. destruct c as [s ? ? ?]. by destruct s. Qed.

Lemma citations_begin_supplemental (call : ApiCall) (query : jsstring)
      (c : Controller) :
  citations (store (stream_begin 2 call (supplemental_callbacks query) c))
  = citations (store c).
Proof. destruct c as [s ? ? ?]. by destruct s. Qed.

Lemma citations_after (kind : StreamingCall) (k : nat) (call : ApiCall)
      (r : StreamResult) (c : Controller) :
  citations (store (ctl (stream_after k 2 call r (callbacks_of kind) None c)))
  = citations (store (stream_begin 2 call (callbacks_of kind) c)).
Proof. unfold stream_after. by rewrite consume_citations. Qed.

Lemma citations_completed (kind : StreamingCall) (call : ApiCall)
      (r : StreamResult) (c : Controller) :
  ending (stream r) = Exhausted ->
  shares_citations r = true ->
  exists s,
    citations s = citations (store (stream_begin 2 call (callbacks_of kind) c))
    /\ citations (store (fst (handleStreamApiCall 2 call (Resolved r)
                                (callbacks_of kind) None c)))
       = citations (onComplete (callbacks_of kind)
                               (mergeCitations [] (collected (steps (stream r))))
                               s).
Proof.
  intros Hend Hshare. unfold handleStreamApiCall.
  set (ls := consume _ _ _).
  pose proof (stream_end_fields 2 (callbacks_of kind) r ls) as (_ & _ & H).
  rewrite Hend, Hshare in H. destruct H as (_ & s1 & Hs1 & _ & Hc & _).
  exists (store (ctl ls)). split.
  - unfold ls. by rewrite consume_citations.
  - rewrite Hc, Hs1. unfold ls at 1.
    by rewrite consume_requestCitations.
Qed.

(** C4 (as the code has it). In a research call, initial or supplemental,
    the citations carried by the chunks are pushed into the array of the
    request while the stream is consumed; the citation set of the store is
    not written before the stream ends.  After any number of steps of the
    stream it is what [onStart] left: empty for the initial research, the
    previous set for the supplemental one.  When the stream ends normally,
    [onComplete] writes the citations of all the chunks of the response,
    replacing the set (initial) or merged into it (supplemental); when the
    stream fails, nothing is written. *)
Theorem research_citations_written_at_completion
        (call : ApiCall) (c : Controller) (p : jsstring) :
  (forall sched : ScheduledResponse,
      let r := conductResearch_result sched p in
      let out := handleStreamApiCall 2 call (Resolved r) research_callbacks
                                     None c in
      (forall k : nat,
          citations (store (ctl (stream_after k 2 call r research_callbacks
                                              None c))) = [])
      /\ (ending (stream r) = Exhausted ->
          citations (store (fst out))
          = mergeCitations [] (carried (snd <$> pulled sched)))
      /\ (forall e, ending (stream r) = Throws e ->
                    citations (store (fst out)) = []))
  /\ (forall (response : Response) (query : jsstring),
         let r := supplementalResearch_result response p in
         let cb := supplemental_callbacks query in
         let out := handleStreamApiCall 2 call (Resolved r) cb None c in
         (forall k : nat,
             citations (store (ctl (stream_after k 2 call r cb None c)))
             = citations (store c))
         /\ (failure response = None ->
             citations (store (fst out))
             = mergeCitations (citations (store c))
                 (mergeCitations [] (carried (chunks response))))
         /\ (forall e, failure response = Some e ->
                       citations (store (fst out)) = citations (store c))).
Proof.
  split.
  - intros sched r out. split; [|split].
    + intros k. rewrite (citations_after ResearchCall).
      apply citations_begin_research.
    + intros Hend.
      destruct (citations_completed ResearchCall call r c Hend eq_refl)
        as (s & _ & Hc).
      unfold out. etrans; [exact Hc|]. simpl.
      rewrite collected_conductResearch. by destruct s.
    + intros e Hend.
      destruct (stream_failure ResearchCall 2 call (Resolved r) c e)
        as (_ & _ & _ & _ & _ & _ & Hc).
      * simpl in Hend |- *. by rewrite Hend.
      * unfold out. etrans; [exact Hc|]. apply citations_begin_research.
  - intros response query r cb out. split; [|split].
    + intros k. rewrite (citations_after (SupplementalCall query)).
      apply citations_begin_supplemental.
    + intros Hend.
      destruct (citations_completed (SupplementalCall query) call r c)
        as (s & Hs & Hc); [by (simpl; rewrite Hend) | done |].
      unfold out. etrans; [exact Hc|]. simpl.
      rewrite collected_supplemental.
      assert (Hs' : citations s = citations (store c))
        by (rewrite Hs; apply citations_begin_supplemental).
      rewrite <- Hs'. by destruct s.
    + intros e Hend.
      destruct (stream_failure (SupplementalCall query) 2 call
                               (Resolved r) c e)
        as (_ & _ & _ & _ & _ & _ & Hc).
      * simpl in Hend |- *. by rewrite Hend.
      * unfold out. etrans; [exact Hc|].
        apply citations_begin_supplemental.
Qed.

Lemma research_citations_written_at_completion_witness :
  citations
    (store (fst (handleStreamApiCall 2 sample_supplemental_call
                   (Resolved (supplementalResearch_result one_cited_chunk
                                                          (js "add")))
                   (supplemental_callbacks (js "more")) None
                   initial_controller)))
  = [sample_citation].
Proof.
  destruct (research_citations_written_at_completion
              sample_supplemental_call initial_controller (js "add"))
    as [_ H].
  destruct (H one_cited_chunk (js "more")) as (_ & Hdone & _).
  etrans; [exact (Hdone eq_refl) | reflexivity].
Defined.

(** The chunk of [one_cited_chunk] carries a citation; once its fragment
    has been consumed, and still once the generator has pushed its
    citations, the citation set of the store does not contain it. *)
Lemma consumed_chunk_citation_not_in_store :
  let r := supplementalResearch_result one_cited_chunk (js "add") in
  let after k :=
    store (ctl (stream_after k 2 sample_supplemental_call r
                             (supplemental_callbacks (js "more")) None
                             initial_controller)) in
  steps (stream r) = [Yield (js "A"); Collect [sample_citation]]
  /\ carried (chunks one_cited_chunk) = [sample_citation]
  /\ researchData (after 1%nat)
     = supplemental_heading (js "more") ++ js "A"
  /\ citations (after 1%nat) = []
  /\ citations (after 2%nat) = []
  /\ has_uri (uri sample_citation) (citations (after 2%nat)) = false.
Proof. repeat split. Qed.

(** ** What the handlers leave alone *)

Section Preservation.

Variable P : AppState -> Prop.

Lemma handleApiCall_preserves {T} stepNumber call
      (apiFn : ApiResult (T * jsstring)) onSuccess promptUpdater
      (c : Controller) :
  preserves P (announce stepNumber) ->
  preserves P (cleanup stepNumber) ->
  (forall e, preserves P (report_failure stepNumber e)) ->
  (forall result, preserves P (onSuccess result)) ->
  (forall updater p, promptUpdater = Some updater ->
                     preserves P (updater p)) ->
  P (store c) ->
  P (store (fst (handleApiCall stepNumber call apiFn onSuccess
                               promptUpdater c))).
Proof.
  intros Ha Hc Hf Hs Hu HP. unfold handleApiCall.
  destruct apiFn as [[result p]|e]; simpl.
  - apply Hc. unfold apply_prompt.
    destruct promptUpdater as [updater|]; simpl.
    + destruct (truthy p); simpl; [apply (Hu updater p eq_refl)|];
        apply Hs, Ha, HP.
    + apply Hs, Ha, HP.
  - apply Hc, Hf, Ha, HP.
Qed.

Lemma handleStreamApiCall_preserves stepNumber call
      (streamApiFn : ApiResult StreamResult) (cb : Callbacks)
      (c : Controller) :
  preserves P (announce stepNumber) ->
  preserves P (cleanup stepNumber) ->
  (forall e, preserves P (report_failure stepNumber e)) ->
  preserves P (setPreparingStep (Direct None)) ->
  preserves P (onStart cb) ->
  (forall chunk, preserves P (onChunk cb chunk)) ->
  (forall cits, preserves P (onComplete cb cits)) ->
  P (store c) ->
  P (store (fst (handleStreamApiCall stepNumber call streamApiFn cb None
                                     c))).
Proof.
  intros Ha Hc Hf Hp Hs Hk Ho HP. unfold handleStreamApiCall.
  assert (Hb : P (store (stream_begin stepNumber call cb c)))
    by (simpl; apply Hs, Ha, HP).
  destruct streamApiFn as [r|e]; simpl.
  - unfold stream_end.
    assert (Hl : P (store (ctl (consume cb (steps (stream r))
                                  (stream_enter r None
                                     (stream_begin stepNumber call cb c))))))
      by (apply consume_preserves; auto).
    destruct (ending (stream r)); simpl.
    + apply Hc, Ho, Hl.
    + apply Hc, Hf, Hl.
  - apply Hc, Hf, Hs, Ha, HP.
Qed.

End Preservation.

Section Quiet.

Implicit Types (s : AppState) (c : Controller) (env : Env).

Lemma quiet_refl s : quiet s s.
Proof. split; auto. Qed.

Lemma quiet_trans s1 s2 s3 : quiet s1 s2 -> quiet s2 s3 -> quiet s1 s3.
Proof.
  intros [H1 H2] [H3 H4]. split; [congruence|].
  intros k Hk. destruct (H4 k Hk); auto.
Qed.

Lemma is_quiet_preserves s0 f : is_quiet f -> preserves (quiet s0) f.
Proof. intros Hf s Hs. eapply quiet_trans; [exact Hs | apply Hf]. Qed.

(** A write that touches neither [step] nor [loading]. *)
Lemma is_quiet_frame f :
  (forall s, step (f s) = step s /\ loading (f s) = loading s) ->
  is_quiet f.
Proof.
  intros Hf s. destruct (Hf s) as [H1 H2]. split; [done|].
  rewrite H2. auto.
Qed.

Lemma is_quiet_announce stepNumber :
  1 <= stepNumber <= 5 -> is_quiet (announce stepNumber).
Proof.
  intros Hn s. destruct s. split; [done|]. simpl. intros k.
  destruct (decide (stepNumber = k)) as [<-|Hne]; [auto|].
  rewrite lookup_insert_ne by done. auto.
Qed.

Lemma is_quiet_cleanup stepNumber :
  1 <= stepNumber <= 5 -> is_quiet (cleanup stepNumber).
Proof.
  intros Hn s. destruct s. split; [done|]. simpl. intros k.
  destruct (decide (stepNumber = k)) as [<-|Hne]; [auto|].
  rewrite lookup_insert_ne by done. auto.
Qed.

Lemma is_quiet_resetStepsFrom fromStep : is_quiet (resetStepsFrom fromStep).
Proof.
  intros s.
  destruct (resetStepsFrom_fields fromStep s) as (Hs & _ & _ & _ & Hl & _).
  split; [done|]. rewrite Hl. intros k. rewrite lookup_delete_steps.
  case_bool_decide; [by intros [? ?] | auto].
Qed.

Ltac frame := apply is_quiet_frame; intros s; by destruct s.

Lemma is_quiet_report_failure stepNumber e :
  is_quiet (report_failure stepNumber e).
Proof. frame. Qed.

Lemma is_quiet_setPreparingStep u : is_quiet (setPreparingStep u).
Proof. frame. Qed.

Lemma is_quiet_callbacks kind :
  is_quiet (onStart (callbacks_of kind))
  /\ (forall chunk, is_quiet (onChunk (callbacks_of kind) chunk))
  /\ (forall cits, is_quiet (onComplete (callbacks_of kind) cits)).
Proof.
  split; [|split; [intros chunk | intros cits]];
    apply is_quiet_frame; intros s; by destruct s, kind.
Qed.

Lemma quiet_handleStreamApiCall kind stepNumber call res c :
  1 <= stepNumber <= 5 ->
  quiet (store c)
        (store (fst (handleStreamApiCall stepNumber call res
                                         (callbacks_of kind) None c))).
Proof.
  intros Hn. destruct (is_quiet_callbacks kind) as (Hs & Hk & Ho).
  apply (handleStreamApiCall_preserves (quiet (store c)));
    try intros ?; try apply is_quiet_preserves;
    auto using is_quiet_announce, is_quiet_cleanup, is_quiet_report_failure,
      is_quiet_setPreparingStep, quiet_refl.
Qed.

Lemma quiet_handleApiCall {T} stepNumber call
      (apiFn : ApiResult (T * jsstring)) onSuccess updater c :
  1 <= stepNumber <= 5 ->
  (forall result, is_quiet (onSuccess result)) ->
  (forall p, is_quiet (updater p)) ->
  quiet (store c)
        (store (fst (handleApiCall stepNumber call apiFn onSuccess
                                   (Some updater) c))).
Proof.
  intros Hn Hs Hu.
  apply (handleApiCall_preserves (quiet (store c))).
  - by apply is_quiet_preserves, is_quiet_announce.
  - by apply is_quiet_preserves, is_quiet_cleanup.
  - intros e. apply is_quiet_preserves, is_quiet_report_failure.
  - intros result. apply is_quiet_preserves, Hs.
  - intros u p [= <-]. apply is_quiet_preserves, Hu.
  - apply quiet_refl.
Qed.

Lemma quiet_run_action env actionFn snap c :
  quiet (store c) (store (run_action env actionFn snap c)).
Proof.
  destruct actionFn; unfold run_action.
  - unfold performAITopicGeneration.
    apply quiet_handleApiCall; [lia | intros; frame | intros; frame].
  - apply (quiet_handleStreamApiCall ResearchCall). lia.
  - unfold performGroupGeneration.
    apply quiet_handleApiCall; [lia | intros; frame | intros; frame].
  - apply (quiet_handleStreamApiCall StartDiscussionCall). lia.
  - apply (quiet_handleStreamApiCall ArticleCall). lia.
Qed.

Lemma quiet_createRerunHandler env stepToRerun actionFn msg c :
  quiet (store c)
        (store (createRerunHandler env stepToRerun actionFn msg c)).
Proof.
  unfold createRerunHandler.
  destruct (isStepLogicallyCompleted (store c) stepToRerun).
  - apply quiet_refl.
  - apply quiet_run_action.
Qed.

Lemma quiet_performSupplementalResearchAction env snap shown c :
  quiet (store c)
        (store (performSupplementalResearchAction env snap shown c)).
Proof.
  unfold performSupplementalResearchAction.
  set (call := SupplementalResearchStream _ _ _).
  set (query := trim _).
  pose proof (quiet_handleStreamApiCall (SupplementalCall query) 2 call
                (supplementalResearchStream (answer_stream env call))
                (on_store (resetStepsFrom 3) c) ltac:(lia)) as Hq.
  simpl in Hq.
  destruct (handleStreamApiCall 2 call _ _ None _) as [c' success].
  simpl in Hq.
  assert (Hc : quiet (store c) (store c')).
  { eapply quiet_trans; [|exact Hq]. apply is_quiet_resetStepsFrom. }
  assert (Hc' : quiet (store c)
                  (store (if success
                          then on_store (setSupplementalResearchQuery
                                           (Direct [])) c'
                          else c'))).
  { destruct success; [|done]. eapply quiet_trans; [exact Hc|].
    simpl. apply is_quiet_frame. intros s. by destruct s. }
  by destruct shown.
Qed.

Lemma quiet_performExtendDiscussion env snap c :
  quiet (store c) (store (performExtendDiscussion env snap c)).
Proof.
  unfold performExtendDiscussion. simpl.
  eapply quiet_trans; [apply (is_quiet_resetStepsFrom 5)|].
  apply (quiet_handleStreamApiCall ExtendDiscussionCall 4 _ _
           (on_store (resetStepsFrom 5) c)). lia.
Qed.

Lemma quiet_run_pending env p c :
  quiet (store c) (store (run_pending env p c)).
Proof.
  destruct p; simpl.
  - eapply quiet_trans; [apply (is_quiet_resetStepsFrom stepToRerun)|].
    apply (quiet_run_action env actionFn snap
             (on_store (resetStepsFrom stepToRerun) c)).
  - apply is_quiet_resetStepsFrom.
  - apply quiet_performSupplementalResearchAction.
  - eapply quiet_trans; [|apply is_quiet_resetStepsFrom].
    apply is_quiet_frame. intros s. by destruct s.
  - apply quiet_performExtendDiscussion.
Qed.

End Quiet.

(** ** Rerun gating, step advance, persistence, extension *)

Lemma quiet_handle (env : Env) (a : UiAction) (c : Controller) :
  moves_step a = false -> quiet (store c) (store (handle env a c)).
Proof.
  destruct a; simpl; try discriminate; intros _;
    try apply quiet_createRerunHandler;
    try apply quiet_refl;
    try (apply is_quiet_frame; intros s; by destruct s).
  - unfold handleSupplementalResearch.
    repeat (match goal with
            | |- context [if ?b then _ else _] => destruct b
            end; try apply quiet_refl);
      apply quiet_performSupplementalResearchAction.
  - eapply quiet_trans; [|apply (is_quiet_resetStepsFrom 4)].
    apply is_quiet_frame. intros s. by destruct s.
  - unfold modal_onConfirm. destruct (confirmation c).
    + apply quiet_run_pending.
    + apply quiet_refl.
Qed.

(** The loading map of a reachable store is keyed by step numbers: the
    initial one is empty and no action of the page adds another key. *)
Lemma loading_keys_initial : loading_keys_are_steps initial_state.
Proof. intros k [v Hk]. simpl in Hk. by rewrite lookup_empty in Hk. Qed.

Lemma loading_keys_handle (env : Env) (a : UiAction) (c : Controller) :
  loading_keys_are_steps (store c) ->
  loading_keys_are_steps (store (handle env a c)).
Proof.
  intros Hc. destruct (moves_step a) eqn:Ha.
  - destruct a; try discriminate; simpl.
    + unfold handleConfirmAndAdvance.
      destruct (negb _); simpl; destruct (store c); exact Hc.
    + destruct (store c); exact Hc.
    + intros k [v Hk]. destruct (store c). simpl in Hk.
      by rewrite lookup_empty in Hk.
  - destruct (quiet_handle env a c Ha) as [_ Hl].
    intros k Hk. destruct (Hl k Hk); auto.
Qed.



(** C7. No action of the page other than navigation, the global reset and
    the confirmation of the topic writes the current step: every
    generation action, single-shot or streaming, rerun or confirmed in the
    modal, successful or not, leaves it where it was.  Confirming a topic
    that is not blank sets the confirmation flag, sets the current step to
    2 (so from 1 to 2) and clears the error in one go, leaving the rest of
    the store alone; with a blank topic it only sets the error. *)
Theorem only_topic_confirmation_advances (env : Env) (c : Controller) :
  (forall a, moves_step a = false ->
             step (store (handle env a c)) = step (store c))
  /\ (truthy (trim (topic (store c))) = true ->
      let s' := store (handle env ConfirmAndAdvance c) in
      isTopicConfirmed s' = true /\ step s' = 2 /\ error s' = None
      /\ (step (store c) = 1 -> step s' = step (store c) + 1)
      /\ s' = assign (assign (assign (store c) (FIsTopicConfirmed true))
                             (FStep 2))
                     (FError None))
  /\ (truthy (trim (topic (store c))) = false ->
      let s' := store (handle env ConfirmAndAdvance c) in
      isTopicConfirmed s' = isTopicConfirmed (store c)
      /\ step s' = step (store c)
      /\ error s' = Some (js "請先輸入一個議題。")
      /\ s' = assign (store c) (FError (Some (js "請先輸入一個議題。"))))
  /\ (forall stepNum,
         store (handle env (Navigate stepNum) c)
         = assign (store c) (FStep stepNum))
  /\ step (store (handle env ResetAll c)) = 1.
Proof.
  split; [|split; [|split; [|split]]].
  - intros a Ha. by destruct (quiet_handle env a c Ha).
  - intros Ht. simpl. unfold handleConfirmAndAdvance. rewrite Ht. simpl.
    destruct (store c). simpl. repeat split. intros ->. reflexivity.
  - intros Ht. simpl. unfold handleConfirmAndAdvance. rewrite Ht. simpl.
    destruct (store c). simpl. repeat split.
  - intros stepNum. reflexivity.
  - simpl. by destruct (store c).
Qed.

Lemma only_topic_confirmation_advances_witness :
  step (store (handle sample_env ModalConfirm
                      (handle sample_env GenerateArticle
                              populated_controller))) = 5
  /\ step (store (handle sample_env ConfirmAndAdvance
                         (on_store (setStep (Direct 1))
                                   populated_controller))) = 2.
Proof.
  split.
  - destruct (only_topic_confirmation_advances sample_env
                (handle sample_env GenerateArticle populated_controller))
      as (H & _).
    exact (H ModalConfirm eq_refl).
  - destruct (only_topic_confirmation_advances sample_env
                (on_store (setStep (Direct 1)) populated_controller))
      as (_ & H & _).
    destruct (H eq_refl) as (_ & H2 & _). exact H2.
Defined.

Lemma persisted_keys_spec (state : AppState) (key : string) :
  In key (persisted_keys state)
  <-> In key (map fst (entries state)) /\ ~ In key not_persisted.
Proof.
  unfold persisted_keys, partialize. rewrite !in_map_iff. split.
  - intros ([k v] & <- & Hin). apply filter_In in Hin as [Hin Hkeep].
    split; [by exists (k, v)|].
    cbn [fst] in Hkeep |- *. intros Hnot.
    apply negb_true_iff, not_true_iff_false in Hkeep. apply Hkeep.
    apply existsb_exists. exists k. split; [exact Hnot|].
    apply String.eqb_refl.
  - intros [([k v] & <- & Hin) Hnot]. exists (k, v). split; [done|].
    apply filter_In. split; [done|]. cbn [fst] in Hnot |- *.
    apply negb_true_iff, not_true_iff_false. intros Hex.
    apply existsb_exists in Hex as (k' & Hk' & Heq).
    apply String.eqb_eq in Heq. by subst.
Qed.

(** C8 (as the code has it). The persisted record, stored under the fixed
    name, contains exactly: the current step, the topic, the topic
    confirmation flag, the research data, the supplemental query, the
    citations, the characters, the transcript, the final article and the
    prompts, each with its value in the state; it contains none of the
    loading flags, the preparing marker, the error, or any action. *)
Theorem persisted_record_layout (state : AppState) :
  persisted state = [ (persist_name, partialize state) ]
  /\ persist_name = "long-form-ai-generator-storage"%string
  /\ partialize state
     = [ ("step", VNumber (step state));
         ("topic", VString (topic state));
         ("isTopicConfirmed", VBoolean (isTopicConfirmed state));
         ("researchData", VString (researchData state));
         ("supplementalResearchQuery",
          VString (supplementalResearchQuery state));
         ("citations", VCitations (citations state));
         ("characters", VCharacters (characters state));
         ("meetingTranscript", VString (meetingTranscript state));
         ("finalArticle", VString (finalArticle state));
         ("prompts", VPrompts (prompts state)) ]%string
  /\ (forall key, In key not_persisted -> ~ In key (persisted_keys state))
  /\ (forall key v, In (key, v) (partialize state) -> v <> VFunction)
  /\ ~ In "loading"%string (persisted_keys state)
  /\ ~ In "preparingStep"%string (persisted_keys state)
  /\ ~ In "error"%string (persisted_keys state).
Proof.
  assert (Hone : forall key, In key not_persisted ->
                             ~ In key (persisted_keys state)).
  { intros key Hin Hkey. apply persisted_keys_spec in Hkey as [_ Hnot].
    by apply Hnot. }
  split; [reflexivity|]. split; [reflexivity|]. split; [reflexivity|].
  split; [exact Hone|]. split.
  - intros key v Hin. change (partialize state) with
      [ ("step", VNumber (step state));
        ("topic", VString (topic state));
        ("isTopicConfirmed", VBoolean (isTopicConfirmed state));
        ("researchData", VString (researchData state));
        ("supplementalResearchQuery",
         VString (supplementalResearchQuery state));
        ("citations", VCitations (citations state));
        ("characters", VCharacters (characters state));
        ("meetingTranscript", VString (meetingTranscript state));
        ("finalArticle", VString (finalArticle state));
        ("prompts", VPrompts (prompts state)) ]%string in Hin.
    simpl in Hin.
    repeat (destruct Hin as [Hin|Hin]; [injection Hin as _ <-; discriminate|]).
    destruct Hin.
  - repeat split; apply Hone; simpl; auto.
Qed.

(** The persisted record of the initial state has the keys [step] and
    [supplementalResearchQuery], which are neither one of the five step
    entities, nor the confirmation flag, the citations or the prompts. *)
Lemma persisted_record_has_step_and_query :
  persisted_keys initial_state
  = [ "step"; "topic"; "isTopicConfirmed"; "researchData";
      "supplementalResearchQuery"; "citations"; "characters";
      "meetingTranscript"; "finalArticle"; "prompts" ]%string
  /\ In "step"%string (persisted_keys initial_state)
  /\ In "supplementalResearchQuery"%string (persisted_keys initial_state)
  /\ ~ In "step"%string
       [ "topic"; "researchData"; "characters"; "meetingTranscript";
         "finalArticle"; "isTopicConfirmed"; "citations"; "prompts" ]%string
  /\ ~ In "supplementalResearchQuery"%string
       [ "topic"; "researchData"; "characters"; "meetingTranscript";
         "finalArticle"; "isTopicConfirmed"; "citations"; "prompts" ]%string.
Proof.
  assert (Hk : persisted_keys initial_state
               = [ "step"; "topic"; "isTopicConfirmed"; "researchData";
                   "supplementalResearchQuery"; "citations"; "characters";
                   "meetingTranscript"; "finalArticle"; "prompts" ]%string)
    by (vm_compute; reflexivity).
  rewrite Hk. split; [reflexivity|].
  split; [by left|].
  split; [do 4 right; by left|].
  split; intros H; simpl in H;
    repeat (destruct H as [H|H]; [discriminate H|]); exact H.
Qed.

(** *** The extension of the discussion *)





(** *** The two generators of [conductResearchStream] *)

(** With the chunks "A", "B", "C" of the response pulled in turn by
    [finalStream], the returned generator and [finalStream] again, only
    "B" reaches the store. *)
Example research_text_pulled_by_finalStream_is_lost :
  researchData (store (performResearch sample_env initial_state
                                       initial_controller))
  = js "B".
Proof. vm_compute. reflexivity. Qed.

(** ** Further properties of the store *)

Lemma AppState_ext (s1 s2 : AppState) :
  step s1 = step s2 -> loading s1 = loading s2 ->
  preparingStep s1 = preparingStep s2 -> error s1 = error s2 ->
  topic s1 = topic s2 -> isTopicConfirmed s1 = isTopicConfirmed s2 ->
  researchData s1 = researchData s2 ->
  supplementalResearchQuery s1 = supplementalResearchQuery s2 ->
  citations s1 = citations s2 -> characters s1 = characters s2 ->
  meetingTranscript s1 = meetingTranscript s2 ->
  finalArticle s1 = finalArticle s2 -> prompts s1 = prompts s2 ->
  s1 = s2.
Proof.
  destruct s1, s2. simpl.
  by intros -> -> -> -> -> -> -> -> -> -> -> -> ->.
Qed.

Lemma filter_index_delete {A} (l : list A) (base i : Z) :
  filter_index (fun j => negb (j =? i)) base l
  = if bool_decide (base <= i < base + Z.of_nat (length l))
    then take (Z.to_nat (i - base)) l ++ drop (S (Z.to_nat (i - base))) l
    else l.
Proof.
  revert base. induction l as [|x r IH]; intros base; simpl.
  - case_bool_decide; [by rewrite ?take_nil, ?drop_nil | done].
  - rewrite IH. destruct (Z.eqb_spec base i) as [->|Hne]; simpl.
    + rewrite Z.sub_diag. simpl. rewrite drop_0.
      repeat case_bool_decide; try done; lia.
    + repeat case_bool_decide; try done; try lia.
      replace (Z.to_nat (i - base)) with (S (Z.to_nat (i - (base + 1))))
        by lia.
      done.
Qed.

(** X1. [deleteCharacter] with an index inside the sequence removes
    exactly the character at that index, the others keeping their order;
    with any other index it changes nothing.  No other property of the
    state is touched. *)
Theorem deleteCharacter_removes_that_index (indexToDelete : Z) (s : AppState) :
  (0 <= indexToDelete < Z.of_nat (length (characters s)) ->
   characters (deleteCharacter indexToDelete s)
   = take (Z.to_nat indexToDelete) (characters s)
     ++ drop (S (Z.to_nat indexToDelete)) (characters s)
   /\ S (length (characters (deleteCharacter indexToDelete s)))
      = length (characters s))
  /\ (~ 0 <= indexToDelete < Z.of_nat (length (characters s)) ->
      deleteCharacter indexToDelete s = s)
  /\ deleteCharacter indexToDelete s
     = assign s (FCharacters (characters (deleteCharacter indexToDelete s))).
Proof.
  assert (Hc : characters (deleteCharacter indexToDelete s)
               = filter_index (fun j => negb (j =? indexToDelete)) 0
                              (characters s)) by (by destruct s).
  rewrite filter_index_delete, Z.sub_0_r, Z.add_0_l in Hc.
  split; [|split].
  - intros Hin. rewrite bool_decide_eq_true_2 in Hc by done.
    rewrite Hc. split; [done|].
    rewrite length_app, length_take, length_drop. lia.
  - intros Hout. rewrite bool_decide_eq_false_2 in Hc by done.
    apply AppState_ext; try exact Hc; by destruct s.
  - by destruct s.
Qed.

Lemma deleteCharacter_removes_that_index_witness :
  characters (deleteCharacter 1
                (assign populated_state
                        (FCharacters
                           [ {| name := js "a"; profession := js "p";
                                background := js "b" |};
                             {| name := js "c"; profession := js "p";
                                background := js "b" |};
                             {| name := js "d"; profession := js "p";
                                background := js "b" |} ])))
  = [ {| name := js "a"; profession := js "p"; background := js "b" |};
      {| name := js "d"; profession := js "p"; background := js "b" |} ]
  /\ deleteCharacter 7 populated_state = populated_state.
Proof.
  split.
  - destruct (deleteCharacter_removes_that_index 1
                (assign populated_state
                        (FCharacters
                           [ {| name := js "a"; profession := js "p";
                                background := js "b" |};
                             {| name := js "c"; profession := js "p";
                                background := js "b" |};
                             {| name := js "d"; profession := js "p";
                                background := js "b" |} ])))
      as (H & _).
    destruct H as [H _]; [simpl; lia|]. etrans; [exact H | reflexivity].
  - destruct (deleteCharacter_removes_that_index 7 populated_state)
      as (_ & H & _).
    apply H. simpl. lia.
Defined.

(** X2. Two cascade invalidations in a row amount to one, from the lower
    of the two steps; in particular invalidating twice from the same step
    is the same as once. *)
Theorem resetStepsFrom_twice (a b : Z) (s : AppState) :
  resetStepsFrom a (resetStepsFrom b s) = resetStepsFrom (Z.min a b) s
  /\ resetStepsFrom a (resetStepsFrom a s) = resetStepsFrom a s.
Proof.
  assert (H : forall a b, resetStepsFrom a (resetStepsFrom b s)
                          = resetStepsFrom (Z.min a b) s).
  { clear a b. intros a b.
    destruct (resetStepsFrom_fields b s)
      as (B1 & B2 & B3 & B4 & B5 & B6 & B7 & B8 & B9 & B10 & B11 & B12 & B13).
    destruct (resetStepsFrom_fields a (resetStepsFrom b s))
      as (A1 & A2 & A3 & A4 & A5 & A6 & A7 & A8 & A9 & A10 & A11 & A12 & A13).
    destruct (resetStepsFrom_fields (Z.min a b) s)
      as (M1 & M2 & M3 & M4 & M5 & M6 & M7 & M8 & M9 & M10 & M11 & M12 & M13).
    apply AppState_ext;
      rewrite ?A1, ?A2, ?A3, ?A4, ?A5, ?A6, ?A7, ?A8, ?A9, ?A10, ?A11, ?A12,
        ?A13, ?B1, ?B2, ?B3, ?B4, ?B5, ?B6, ?B7, ?B8, ?B9, ?B10, ?B11, ?B12,
        ?B13, ?M1, ?M2, ?M3, ?M4, ?M5, ?M6, ?M7, ?M8, ?M9, ?M10, ?M11, ?M12,
        ?M13; try done;
      try (repeat match goal with
                  | |- context [?x <=? ?y] => destruct (Z.leb_spec x y)
                  end; try done; lia).
    apply map_eq. intros k. rewrite !lookup_delete_steps.
    repeat case_bool_decide; try done; lia. }
  split; [apply H|]. rewrite H. by rewrite Z.min_id.
Qed.

(** X3. Invalidating from a step beyond the fifth clears nothing but the
    error: no entity is reset and no loading flag is removed. *)
Theorem resetStepsFrom_beyond_last_step (fromStep : Z) (s : AppState) :
  5 < fromStep -> resetStepsFrom fromStep s = assign s (FError None).
Proof.
  intros Hn.
  destruct (resetStepsFrom_fields fromStep s)
    as (A1 & A2 & A3 & A4 & A5 & A6 & A7 & A8 & A9 & A10 & A11 & A12 & A13).
  apply AppState_ext;
    rewrite ?A1, ?A2, ?A3, ?A4, ?A5, ?A6, ?A7, ?A8, ?A9, ?A10, ?A11, ?A12,
      ?A13; destruct s; simpl; try done;
    try (repeat match goal with
                | |- context [?x <=? ?y] => destruct (Z.leb_spec x y)
                end; try done; lia).
  replace (Z.to_nat (5 - fromStep + 1)) with 0%nat by lia. done.
Qed.

Lemma resetStepsFrom_beyond_last_step_witness :
  topic (resetStepsFrom 6 populated_state) = js "X"
  /\ loading (resetStepsFrom 6 populated_state) = loading populated_state
  /\ error (resetStepsFrom 6 populated_state) = None.
Proof.
  rewrite (resetStepsFrom_beyond_last_step 6 populated_state ltac:(lia)).
  split; [reflexivity|]. split; reflexivity.
Defined.

Lemma isStepLogicallyCompleted_after_reset (fromStep stepNumber : Z)
      (s : AppState) :
  1 <= fromStep ->
  (fromStep <= stepNumber <= 5 ->
   isStepLogicallyCompleted (resetStepsFrom fromStep s) stepNumber = false)
  /\ (stepNumber < fromStep ->
      isStepLogicallyCompleted (resetStepsFrom fromStep s) stepNumber
      = isStepLogicallyCompleted s stepNumber).
Proof.
  intros Hn.
  destruct (resetStepsFrom_fields fromStep s)
    as (_ & _ & _ & _ & _ & _ & A7 & A8 & _ & A10 & A11 & A12 & A13).
  unfold isStepLogicallyCompleted.
  rewrite A7, A8, A10, A11, A12, A13.
  split; intros Hk;
    repeat match goal with
           | |- context [?x =? ?y] => destruct (Z.eqb_spec x y); subst
           end;
    repeat match goal with
           | |- context [?x <=? ?y] => destruct (Z.leb_spec x y)
           end; try done; lia.
Qed.

(** X4. After an invalidation from step [fromStep], no step from
    [fromStep] to 5 is logically completed, and every earlier step is
    completed exactly when it was before. *)
Theorem resetStepsFrom_uncompletes (fromStep stepNumber : Z) (s : AppState) :
  1 <= fromStep ->
  (fromStep <= stepNumber <= 5 ->
   isStepLogicallyCompleted (resetStepsFrom fromStep s) stepNumber = false)
  /\ (stepNumber < fromStep ->
      isStepLogicallyCompleted (resetStepsFrom fromStep s) stepNumber
      = isStepLogicallyCompleted s stepNumber).
Proof. apply isStepLogicallyCompleted_after_reset. Qed.

Lemma resetStepsFrom_uncompletes_witness :
  isStepLogicallyCompleted (resetStepsFrom 3 populated_state) 4 = false
  /\ isStepLogicallyCompleted (resetStepsFrom 3 populated_state) 2 = true.
Proof.
  split.
  - destruct (resetStepsFrom_uncompletes 3 4 populated_state ltac:(lia))
      as [H _].
    apply H. lia.
  - destruct (resetStepsFrom_uncompletes 3 2 populated_state ltac:(lia))
      as [_ H].
    etrans; [apply H; lia | reflexivity].
Defined.

(** X5. [resetAll] brings any state back to the state of a fresh start,
    default prompts included, in which no step is logically completed. *)
Theorem resetAll_restores_initial_state (s : AppState) :
  resetAll s = initial_state
  /\ forall stepNumber,
      isStepLogicallyCompleted (resetAll s) stepNumber = false.
Proof.
  assert (H : resetAll s = initial_state) by (by destruct s).
  split; [exact H|]. intros k. rewrite H. unfold isStepLogicallyCompleted.
  simpl. by repeat destruct (_ =? _).
Qed.

(** ** Navigation, buttons and the character panel *)

Lemma isStepLogicallyCompletedForSidebar_agrees (s : AppState) (n : Z) :
  isStepLogicallyCompletedForSidebar s n = isStepLogicallyCompleted s n.
Proof. reflexivity. Qed.

(** X6. In the sidebar every step up to the current one can be clicked; a
    step ahead of the current one can be clicked exactly when it is
    logically completed, by the same policy as the page uses, so after an
    invalidation from [fromStep] no step from [fromStep] on that lies
    ahead of the current one can be clicked.  A click that is allowed moves
    the current step there and changes nothing else; a click that is not
    changes nothing. *)
Theorem sidebar_navigation (c : Controller) (num : Z) :
  (num <= step (store c) -> isClickable (store c) num = true)
  /\ (step (store c) < num ->
      isClickable (store c) num = isStepLogicallyCompleted (store c) num)
  /\ (forall fromStep,
         1 <= fromStep <= num -> num <= 5 -> step (store c) < num ->
         isClickable (resetStepsFrom fromStep (store c)) num = false)
  /\ (isClickable (store c) num = true ->
      sidebar_click num c = on_store (fun s => assign s (FStep num)) c)
  /\ (isClickable (store c) num = false -> sidebar_click num c = c).
Proof.
  split; [|split; [|split; [|split]]].
  - intros Hle. unfold isClickable.
    destruct (Z.leb_spec num (step (store c))); [done | lia].
  - intros Hlt. unfold isClickable.
    rewrite isStepLogicallyCompletedForSidebar_agrees.
    destruct (Z.leb_spec num (step (store c))); [lia|].
    destruct (Z.ltb_spec (step (store c)) num); [done | lia].
  - intros fromStep Hn H5 Hahead. unfold isClickable.
    rewrite isStepLogicallyCompletedForSidebar_agrees.
    destruct (resetStepsFrom_fields fromStep (store c)) as (-> & _).
    destruct (Z.leb_spec num (step (store c))); [lia|].
    destruct (Z.ltb_spec (step (store c)) num); [|lia]. simpl.
    destruct (isStepLogicallyCompleted_after_reset fromStep num (store c)
                ltac:(lia)) as [Hun _].
    apply Hun. lia.
  - intros Hyes. unfold sidebar_click. by rewrite Hyes.
  - intros Hno. unfold sidebar_click. by rewrite Hno.
Qed.

Lemma sidebar_navigation_witness :
  isClickable (resetStepsFrom 3 (assign populated_state (FStep 2))) 4 = false
  /\ isClickable populated_state 2 = true.
Proof.
  destruct (sidebar_navigation
              {| store := assign populated_state (FStep 2);
                 confirmation := None; isModalOpen := false; log := [] |} 4)
    as (_ & _ & H & _).
  split; [apply (H 3); simpl; lia|].
  destruct (sidebar_navigation populated_controller 2) as (H2 & _).
  apply H2. simpl. lia.
Defined.

Lemma blank_nil : blank [] = true.
Proof. reflexivity. Qed.

(** X7. After an invalidation from step [fromStep], the primary button of
    every later step is disabled, whatever the current step and the
    loading flags: each of them needs an entity that the invalidation has
    emptied. *)
Theorem downstream_buttons_disabled_after_reset
        (fromStep stepNumber : Z) (s : AppState) :
  1 <= fromStep -> fromStep < stepNumber <= 5 ->
  primary_button_disabled (resetStepsFrom fromStep s) stepNumber = true.
Proof.
  intros Hn Hk.
  destruct (resetStepsFrom_fields fromStep s)
    as (_ & _ & _ & _ & _ & A6 & _ & A8 & _ & _ & A11 & A12 & _).
  unfold primary_button_disabled, research_button_disabled,
    group_button_disabled, discussion_button_disabled,
    article_button_disabled, ActionButton_disabled.
  rewrite A6, A8, A11, A12.
  repeat match goal with
         | |- context [?x =? ?y] =>
           lazymatch x with
           | stepNumber => destruct (Z.eqb_spec x y); subst
           end
         end; try lia;
    repeat match goal with
           | |- context [?x <=? ?y] => destruct (Z.leb_spec x y)
           end; try lia;
    rewrite ?blank_nil; simpl; rewrite ?orb_true_r; try done.
Qed.

Lemma downstream_buttons_disabled_after_reset_witness :
  primary_button_disabled (resetStepsFrom 2 populated_state) 5 = true
  /\ primary_button_disabled populated_state 5 = false.
Proof.
  split; [|reflexivity].
  apply downstream_buttons_disabled_after_reset; lia.
Defined.

(** X8. Asking to delete a character only opens a confirmation: the store
    and the log are untouched, and cancelling leaves them so.  Confirming
    removes the character at that index (none if the index is outside the
    panel), empties the transcript and the final article, closes the
    confirmation and dispatches no request; the topic, the research, the
    citations and the current step stay as they were. *)
Theorem delete_character_flow (env : Env) (indexToDelete : Z)
        (c : Controller) :
  let asked := handleDeleteCharacter indexToDelete c in
  let done := modal_onConfirm env asked in
  store asked = store c /\ log asked = log c
  /\ store (modal_onCancel asked) = store c
  /\ characters (store done)
     = characters (deleteCharacter indexToDelete (store c))
  /\ meetingTranscript (store done) = []
  /\ finalArticle (store done) = []
  /\ topic (store done) = topic (store c)
  /\ isTopicConfirmed (store done) = isTopicConfirmed (store c)
  /\ researchData (store done) = researchData (store c)
  /\ citations (store done) = citations (store c)
  /\ step (store done) = step (store c)
  /\ confirmation done = None
  /\ log done = log c.
Proof. destruct c as [s ? ? ?]. destruct s. repeat split. Qed.

(** X9. Saving the character form with an empty name, profession or
    background adds nothing: the controller and the form are as before and
    the user is alerted.  With the three fields filled, the character is
    appended after the existing ones, the transcript and the final article
    are emptied, the form is cleared and the modal closed. *)
Theorem character_form_save (form : CharacterForm) (c : Controller) :
  let out := AddCharacterModal_handleSave form c in
  (form_name form = [] \/ form_profession form = []
   \/ form_background form = [] ->
   controller_after out = c /\ form_after out = form /\ alerted out = true)
  /\ (form_name form <> [] -> form_profession form <> [] ->
      form_background form <> [] ->
      characters (store (controller_after out))
      = characters (store c)
        ++ [ {| name := form_name form; profession := form_profession form;
                background := form_background form |} ]
      /\ meetingTranscript (store (controller_after out)) = []
      /\ finalArticle (store (controller_after out)) = []
      /\ researchData (store (controller_after out))
         = researchData (store c)
      /\ isModalOpen (controller_after out) = false
      /\ form_after out = empty_form
      /\ alerted out = false).
Proof.
  unfold AddCharacterModal_handleSave. split.
  - intros [H|[H|H]]; rewrite H; simpl; rewrite ?andb_false_r; done.
  - intros H1 H2 H3.
    destruct (form_name form), (form_profession form),
      (form_background form); try done.
    simpl. destruct c as [s ? ? ?]. destruct s. repeat split.
Qed.

Lemma character_form_save_witness :
  alerted (AddCharacterModal_handleSave
             {| form_name := js "N"; form_profession := [];
                form_background := js "B" |} populated_controller) = true
  /\ length (characters
               (store (controller_after
                         (AddCharacterModal_handleSave
                            {| form_name := js "N2";
                               form_profession := js "P2";
                               form_background := js "B2" |}
                            populated_controller)))) = 2%nat.
Proof.
  split.
  - destruct (character_form_save
                {| form_name := js "N"; form_profession := [];
                   form_background := js "B" |} populated_controller)
      as [H _].
    destruct H as (_ & _ & H); [right; left; reflexivity | exact H].
  - destruct (character_form_save
                {| form_name := js "N2"; form_profession := js "P2";
                   form_background := js "B2" |} populated_controller)
      as [_ H].
    destruct H as (H & _); try discriminate.
    rewrite H. reflexivity.
Defined.

(** ** Further properties of the services and of the classification of
       failures *)


Lemma fragments_app sts1 sts2 :
  fragments (sts1 ++ sts2) = fragments sts1 ++ fragments sts2.
Proof.
  induction sts1 as [|st sts1 IH]; simpl; [done|].
  destruct st; simpl; by rewrite IH.
Qed.


Lemma startsWith_app (p rest : jsstring) : startsWith p (p ++ rest) = true.
Proof.
  induction p as [|a p IH]; simpl; [by destruct rest|].
  by rewrite N.eqb_refl, IH.
Qed.

Lemma startsWith_true (p s : jsstring) :
  startsWith p s = true -> exists rest, s = p ++ rest.
Proof.
  revert s. induction p as [|a p IH]; intros s; simpl.
  - destruct s; intros _; eauto.
  - destruct s as [|b s]; [done|].
    intros [Hab Hs]%andb_true_iff. apply N.eqb_eq in Hab as ->.
    destruct (IH s Hs) as [rest ->]. by exists rest.
Qed.

Lemma includes_unfold (needle hay : jsstring) :
  includes needle hay
  = startsWith needle hay
    || match hay with
       | [] => false
       | _ :: r => includes needle r
       end.
Proof. by destruct hay. Qed.

Lemma includes_true (needle hay : jsstring) :
  includes needle hay = true
  <-> exists before after, hay = before ++ needle ++ after.
Proof.
  split.
  - induction hay as [|b hay IH]; simpl.
    + rewrite orb_false_r. intros [rest ->]%startsWith_true.
      by exists [], rest.
    + intros [Hs|Hi]%orb_true_iff.
      * apply startsWith_true in Hs as [rest ->]. by exists [], rest.
      * destruct (IH Hi) as (before & after & ->).
        by exists (b :: before), after.
  - intros (before & after & ->).
    induction before as [|b before IH]; simpl.
    + rewrite includes_unfold. by rewrite startsWith_app.
    + by rewrite IH, orb_true_r.
Qed.

(** X12. A thrown value is classified as a rate-limit failure exactly when
    it is an [Error] whose message contains "429" or "RESOURCE_EXHAUSTED"
    somewhere; the call then reports the quota message for any step, and
    the message of the error is not shown. *)
Theorem rate_limit_classification (e : Thrown) :
  (isRateLimitError e = true
   <-> exists m before after,
        e = ErrorObj m
        /\ (m = before ++ js "429" ++ after
            \/ m = before ++ js "RESOURCE_EXHAUSTED" ++ after))
  /\ (isRateLimitError e = true ->
      forall stepNumber, failure_message stepNumber e = quota_message).
Proof.
  split.
  - destruct e as [m|]; simpl.
    + rewrite orb_true_iff, !includes_true. split.
      * intros [(b & a & ->)|(b & a & ->)]; eexists _, b, a; eauto.
      * intros (m' & b & a & [= <-] & [->| ->]); eauto.
    + split; [done|]. by intros (? & ? & ? & ? & _).
  - intros He stepNumber. unfold failure_message. by rewrite He.
Qed.

Lemma rate_limit_classification_witness :
  failure_message 4 (ErrorObj (js "got status: 429 Too Many Requests"))
  = quota_message.
Proof.
  destruct (rate_limit_classification
              (ErrorObj (js "got status: 429 Too Many Requests")))
    as [_ H].
  apply H. reflexivity.
Defined.

Lemma first_seen_all_seen (seen : list jsstring) (l : list Citation) :
  (forall c, c ∈ l -> uri c ∈ seen) -> first_seen seen l = [].
Proof.
  induction l as [|c r IH]; intros Hall; simpl; [done|].
  rewrite bool_decide_eq_true_2.
  - apply IH. intros d Hd. apply Hall, elem_of_cons. by right.
  - apply Hall, elem_of_cons. by left.
Qed.

Lemma mergeCitations_prefix (acc l : list Citation) :
  mergeCitations acc l = acc ++ first_seen (uri <$> acc) l.
Proof. by apply mergeCitations_first_seen. Qed.

Lemma mergeCitations_again (acc l : list Citation) :
  mergeCitations (mergeCitations acc l) l = mergeCitations acc l.
Proof.
  rewrite (mergeCitations_prefix (mergeCitations acc l) l).
  rewrite first_seen_all_seen; [by rewrite app_nil_r|].
  intros c Hc. rewrite mergeCitations_prefix, fmap_app, elem_of_app.
  rewrite elem_of_first_seen_uri.
  destruct (decide (uri c ∈ uri <$> acc)); [by left|]. right.
  split; [by apply list_elem_of_fmap_2 | done].
Qed.

Lemma mergeCitations_NoDup (acc l : list Citation) :
  NoDup (uri <$> acc) -> NoDup (uri <$> mergeCitations acc l).
Proof.
  intros Hacc. rewrite mergeCitations_prefix, fmap_app.
  apply NoDup_app. split; [done|]. split; [|apply first_seen_NoDup].
  intros u Hu. rewrite elem_of_first_seen_uri. naive_solver.
Qed.

(** X13. [appendToResearch] appends the new text to the research data and
    keeps every existing citation, in place and with its title, the new
    ones coming after; it adds no citation whose uri is already there, so
    appending the same citations a second time adds none, and a citation
    set without repeated uri stays so.  Nothing else in the state
    changes. *)
Theorem appendToResearch_keeps_existing
        (newResearch : jsstring) (newCitations : list Citation)
        (s : AppState) :
  let s' := appendToResearch newResearch newCitations s in
  researchData s' = researchData s ++ newResearch
  /\ citations s'
     = citations s ++ first_seen (uri <$> citations s) newCitations
  /\ (forall t, citations (appendToResearch t newCitations s') = citations s')
  /\ (NoDup (uri <$> citations s) -> NoDup (uri <$> citations s'))
  /\ s' = assign (assign s (FResearchData (researchData s')))
                 (FCitations (citations s')).
Proof.
  assert (Hc : citations (appendToResearch newResearch newCitations s)
               = mergeCitations (citations s) newCitations)
    by (by destruct s).
  simpl. rewrite Hc. split; [by destruct s|].
  split; [apply mergeCitations_prefix|]. split; [|split].
  - intros t.
    assert (Hc' : forall s0, citations (appendToResearch t newCitations s0)
                             = mergeCitations (citations s0) newCitations)
      by (intros s0; by destruct s0).
    rewrite Hc', Hc. apply mergeCitations_again.
  - apply mergeCitations_NoDup.
  - by destruct s.
Qed.

(** ** Further properties of the two call shapes *)

Lemma dispatches_app (l1 l2 : list Event) :
  dispatches (l1 ++ l2) = dispatches l1 ++ dispatches l2.
Proof.
  induction l1 as [|ev l1 IH]; simpl; [done|].
  destruct ev; simpl; by rewrite IH.
Qed.

Lemma dispatches_OnChunk (fs : list jsstring) :
  dispatches (OnChunk <$> fs) = [].
Proof. induction fs as [|f fs IH]; [done | exact IH]. Qed.

Lemma buffer_begin (kind : StreamingCall) (stepNumber : Z) (call : ApiCall)
      (c : Controller) :
  buffer_of kind (store (stream_begin stepNumber call (callbacks_of kind) c))
  = buffer_seed kind (store c).
Proof. destruct c as [s ? ? ?]. by destruct s, kind. Qed.

Lemma error_begin (kind : StreamingCall) (stepNumber : Z) (call : ApiCall)
      (c : Controller) :
  error (store (stream_begin stepNumber call (callbacks_of kind) c)) = None.
Proof. destruct c as [s ? ? ?]. by destruct s, kind. Qed.

(** The log of a streaming call, whatever its outcome. *)
Lemma stream_log (stepNumber : Z) (call : ApiCall)
      (res : ApiResult StreamResult) (cb : Callbacks) (c : Controller) :
  log (fst (handleStreamApiCall stepNumber call res cb None c))
  = log c ++ [OnStart; Dispatched call] ++ (OnChunk <$> delivered res)
    ++ match res with
       | Resolved r =>
         match ending (stream r) with
         | Exhausted =>
           [OnComplete (if shares_citations r
                        then mergeCitations [] (collected (steps (stream r)))
                        else [])]
         | Throws _ => []
         end
       | Rejected _ => []
       end.
Proof.
  unfold handleStreamApiCall. destruct res as [r|e]; simpl.
  - unfold stream_end. destruct (ending (stream r)); simpl.
    + rewrite consume_log, consume_requestCitations. simpl.
      by rewrite <- !app_assoc.
    + rewrite consume_log. simpl. by rewrite <- !app_assoc, app_nil_r.
  - by rewrite <- app_assoc.
Qed.

Lemma stream_buffer (kind : StreamingCall) (stepNumber : Z)
      (call : ApiCall) (res : ApiResult StreamResult) (c : Controller) :
  buffer_of kind
    (store (fst (handleStreamApiCall stepNumber call res (callbacks_of kind)
                                     None c)))
  = buffer_seed kind (store c) ++ concat (delivered res).
Proof.
  rewrite <- (buffer_begin kind stepNumber call c).
  destruct (raised res) as [e|] eqn:Hraised.
  - by destruct (stream_failure kind stepNumber call res c e Hraised)
      as (_ & H & _).
  - destruct res as [r|e]; [|done]. simpl in Hraised.
    destruct (ending (stream r)) eqn:Hend; [|done].
    by destruct (stream_success kind stepNumber call r c Hend) as (_ & H & _).
Qed.




(** X14. Whatever the provider answers, a streaming call invokes [onStart]
    once, then dispatches its one request, then invokes [onChunk] once for
    each fragment handed over, in order; [onComplete] is invoked, once and
    last, exactly when the stream ends normally, and then the call
    succeeds with a null error.  Otherwise the call fails with the failure
    message as error.  In both cases the loading flag of the step ends
    false and the preparing marker null. *)
Theorem stream_lifecycle (kind : StreamingCall) (stepNumber : Z)
        (call : ApiCall) (res : ApiResult StreamResult) (c : Controller) :
  let out := handleStreamApiCall stepNumber call res (callbacks_of kind)
                                 None c in
  log (fst out)
  = log c ++ [OnStart; Dispatched call] ++ (OnChunk <$> delivered res)
    ++ match res with
       | Resolved r =>
         match ending (stream r) with
         | Exhausted =>
           [OnComplete (if shares_citations r
                        then mergeCitations [] (collected (steps (stream r)))
                        else [])]
         | Throws _ => []
         end
       | Rejected _ => []
       end
  /\ snd out = match raised res with None => true | Some _ => false end
  /\ error (store (fst out))
     = match raised res with
       | None => None
       | Some e => Some (failure_message stepNumber e)
       end
  /\ loading (store (fst out)) !! stepNumber = Some false
  /\ preparingStep (store (fst out)) = None.
Proof.
  intros out. split; [apply stream_log|].
  destruct (raised res) as [e|] eqn:Hraised.
  - destruct (stream_failure kind stepNumber call res c e Hraised)
      as (H1 & _ & _ & H4 & H5 & H6 & _).
    by repeat split.
  - destruct res as [r|e]; [|done]. simpl in Hraised.
    destruct (ending (stream r)) eqn:Hend; [|done].
    unfold out, handleStreamApiCall.
    set (ls := consume _ _ _).
    pose proof (stream_end_fields stepNumber (callbacks_of kind) r ls)
      as (Hp & Hl & H).
    rewrite Hend in H. destruct H as (Hok & s1 & Hs1 & He & _).
    repeat split; try done.
    rewrite He, Hs1.
    assert (Hls : error (store (ctl ls)) = None).
    { unfold ls. apply consume_preserves.
      - intros s Hs. by destruct s.
      - intros chunk s Hs. by destruct s, kind.
      - apply error_begin. }
    rewrite <- Hls. by destruct (store (ctl ls)), kind.
Qed.

(** X15. Whatever the provider answers, the buffer a streaming call leaves
    is what [onStart] put there followed by the fragments handed over.
    The research, the start of the discussion and the article start from
    an empty buffer, so what was there before the call is gone even when
    the request is rejected; the supplemental research and the extension of
    the discussion keep what was there and add their heading, which stays
    even when no fragment follows. *)
Theorem stream_buffer_any_outcome (kind : StreamingCall) (stepNumber : Z)
        (call : ApiCall) (res : ApiResult StreamResult) (c : Controller) :
  buffer_of kind
    (store (fst (handleStreamApiCall stepNumber call res (callbacks_of kind)
                                     None c)))
  = buffer_seed kind (store c) ++ concat (delivered res).
Proof. apply stream_buffer. Qed.

Lemma insert_false_true (stepNumber : Z) (l : gmap Z bool) :
  <[stepNumber := false]> (<[stepNumber := true]> l)
  = <[stepNumber := false]> l.
Proof. apply insert_insert_eq. Qed.

(** X16. A single-shot call that is rejected leaves every entity and the
    prompts as they were: only the loading flag of its step (false), the
    preparing marker (null) and the error (the failure message) are
    written.  When it succeeds, the result replaces the topic (step 1) or
    the panel (step 3), the prompt of the step is overwritten by the prompt
    the service resolved unless that one is empty, and the error is null;
    the topic is not confirmed by the generation. *)
Theorem single_shot_outcomes (env : Env) (snap : AppState) (c : Controller) :
  let s := store c in
  match answer_topic env (request_of TopicGeneration snap) with
  | Rejected e =>
    store (performAITopicGeneration env snap c)
    = assign (assign (assign s (FLoading (<[1 := false]> (loading s))))
                     (FPreparingStep None))
             (FError (Some (failure_message 1 e)))
  | Resolved (result, p) =>
    store (performAITopicGeneration env snap c)
    = assign (assign (assign (assign (assign s
          (FLoading (<[1 := false]> (loading s))))
          (FPreparingStep None)) (FError None)) (FTopic result))
        (FPrompts (if truthy p then with_step1 p (prompts s) else prompts s))
  end
  /\ match answer_group env (request_of GroupGeneration snap) with
     | Rejected e =>
       store (performGroupGeneration env snap c)
       = assign (assign (assign s (FLoading (<[3 := false]> (loading s))))
                        (FPreparingStep None))
                (FError (Some (failure_message 3 e)))
     | Resolved (result, p) =>
       store (performGroupGeneration env snap c)
       = assign (assign (assign (assign (assign s
             (FLoading (<[3 := false]> (loading s))))
             (FPreparingStep None)) (FError None)) (FCharacters result))
           (FPrompts (if truthy p then with_step3 p (prompts s)
                      else prompts s))
     end
  /\ isTopicConfirmed (store (performAITopicGeneration env snap c))
     = isTopicConfirmed s.
Proof.
  unfold performAITopicGeneration, performGroupGeneration, handleApiCall.
  simpl. destruct c as [s ? ? ?]. simpl. split; [|split].
  - destruct (answer_topic env _) as [[result p]|e]; simpl;
      unfold apply_prompt; try destruct (truthy p); destruct s; simpl;
      (match goal with
       | |- _ = Build_AppState _ (<[_ := false]> ?l) _ _ _ _ _ _ _ _ _ _ _ =>
         rewrite <- (insert_false_true _ l)
       end); reflexivity.
  - destruct (answer_group env _) as [[result p]|e]; simpl;
      unfold apply_prompt; try destruct (truthy p); destruct s; simpl;
      (match goal with
       | |- _ = Build_AppState _ (<[_ := false]> ?l) _ _ _ _ _ _ _ _ _ _ _ =>
         rewrite <- (insert_false_true _ l)
       end); reflexivity.
  - destruct (answer_topic env _) as [[result p]|e]; simpl.
    + unfold apply_prompt. destruct (truthy p); by destruct s.
    + by destruct s.
Qed.

(** ** Requests, frames and invariants of the page's actions *)

Lemma dispatches_stream (stepNumber : Z) (call : ApiCall)
      (res : ApiResult StreamResult) (cb : Callbacks) (c : Controller) :
  dispatches (log (fst (handleStreamApiCall stepNumber call res cb None c)))
  = dispatches (log c) ++ [call].
Proof.
  rewrite stream_log, !dispatches_app, dispatches_OnChunk. simpl.
  destruct res as [r|e]; [destruct (ending (stream r))|]; simpl;
    by rewrite ?app_nil_r.
Qed.

Lemma dispatches_api {T} (stepNumber : Z) (call : ApiCall)
      (apiFn : ApiResult (T * jsstring)) onSuccess promptUpdater
      (c : Controller) :
  dispatches (log (fst (handleApiCall stepNumber call apiFn onSuccess
                                      promptUpdater c)))
  = dispatches (log c) ++ [call].
Proof.
  unfold handleApiCall, apply_prompt.
  destruct apiFn as [[result p]|e]; simpl.
  - destruct promptUpdater; [destruct (truthy p)|]; simpl;
      rewrite !dispatches_app; simpl; by rewrite app_nil_r.
  - by rewrite dispatches_app.
Qed.

Lemma dispatches_run_action (env : Env) (actionFn : RerunAction)
      (snap : AppState) (c : Controller) :
  dispatches (log (run_action env actionFn snap c))
  = dispatches (log c) ++ [request_of actionFn snap].
Proof.
  destruct actionFn; simpl;
    first [apply dispatches_api | apply dispatches_stream].
Qed.

Lemma dispatches_supplemental (env : Env) (snap : AppState) (shown : bool)
      (c : Controller) :
  dispatches (log (performSupplementalResearchAction env snap shown c))
  = dispatches (log c) ++ [supplemental_call snap].
Proof.
  unfold performSupplementalResearchAction.
  pose proof (dispatches_stream 2 (supplemental_call snap)
                (supplementalResearchStream
                   (answer_stream env (supplemental_call snap)))
                (supplemental_callbacks
                   (trim (supplementalResearchQuery snap)))
                (on_store (resetStepsFrom 3) c)) as H.
  unfold supplemental_call in *.
  destruct (handleStreamApiCall 2 _ _ _ None _) as [c' success].
  simpl in H. by destruct success, shown.
Qed.

Lemma dispatches_extend (env : Env) (snap : AppState) (c : Controller) :
  dispatches (log (performExtendDiscussion env snap c))
  = dispatches (log c) ++ [extend_call snap].
Proof.
  unfold performExtendDiscussion. simpl.
  apply (dispatches_stream 4 (extend_call snap) _ _
           (on_store (resetStepsFrom 5) c)).
Qed.

(** X17. No action of the page issues more than one request, whatever the
    provider answers: a failed request is never issued again.  An action
    that runs a generation issues exactly the request of that action, with
    the arguments its closure holds. *)
Theorem at_most_one_request (env : Env) (a : UiAction) (c : Controller) :
  (exists calls,
      (length calls <= 1)%nat
      /\ dispatches (log (handle env a c)) = dispatches (log c) ++ calls)
  /\ (forall actionFn snap,
         dispatches (log (run_action env actionFn snap c))
         = dispatches (log c) ++ [request_of actionFn snap]).
Proof.
  split; [|intros; apply dispatches_run_action].
  assert (Hnone : forall c' : Controller,
             log c' = log c ->
             exists calls, (length calls <= 1)%nat
                           /\ dispatches (log c') = dispatches (log c) ++ calls).
  { intros c' ->. exists []. split; [simpl; lia | by rewrite app_nil_r]. }
  assert (Hone : forall (c' : Controller) call,
             dispatches (log c') = dispatches (log c) ++ [call] ->
             exists calls, (length calls <= 1)%nat
                           /\ dispatches (log c') = dispatches (log c) ++ calls).
  { intros c' call ->. exists [call]. split; [simpl; lia | done]. }
  assert (Hrerun : forall n actionFn msg,
             exists calls,
               (length calls <= 1)%nat
               /\ dispatches (log (createRerunHandler env n actionFn msg c))
                  = dispatches (log c) ++ calls).
  { intros n actionFn msg. unfold createRerunHandler.
    destruct (isStepLogicallyCompleted (store c) n).
    - by apply Hnone.
    - eapply Hone, dispatches_run_action. }
  destruct a; simpl; try apply Hrerun; try (by apply Hnone).
  - unfold handleConfirmAndAdvance. destruct (negb _); by apply Hnone.
  - unfold handleSupplementalResearch.
    destruct (negb _); [by apply Hnone|].
    destruct (_ || _); [by apply Hnone|].
    eapply Hone, dispatches_supplemental.
  - unfold modal_onConfirm.
    destruct (confirmation c) as [[m p]|]; [|by apply Hnone].
    destruct p; simpl.
    + eapply Hone. simpl.
      apply (dispatches_run_action env actionFn snap
               (on_store (resetStepsFrom stepToRerun) c)).
    + by apply Hnone.
    + eapply Hone, dispatches_supplemental.
    + by apply Hnone.
    + eapply Hone, dispatches_extend.
Qed.



Ltac run_frame P :=
  first [ apply (handleApiCall_preserves P)
        | apply (handleStreamApiCall_preserves P) ];
  first [ reflexivity
        | unfold preserves; intros;
          repeat match goal with
                 | H : Some _ = Some _ |- _ => injection H as <-
                 end;
          match goal with s0 : AppState |- _ => destruct s0 end;
          simpl in *; assumption ].

Lemma run_action_frame (env : Env) (actionFn : RerunAction)
        (snap : AppState) (c : Controller) :
  let s := store c in
  let s' := store (run_action env actionFn snap c) in
  isTopicConfirmed s' = isTopicConfirmed s
  /\ step s' = step s
  /\ supplementalResearchQuery s' = supplementalResearchQuery s
  /\ (actionFn <> TopicGeneration -> topic s' = topic s)
  /\ (actionFn <> Research ->
      researchData s' = researchData s /\ citations s' = citations s)
  /\ (actionFn <> GroupGeneration -> characters s' = characters s)
  /\ (actionFn <> StartDiscussion ->
      meetingTranscript s' = meetingTranscript s)
  /\ (actionFn <> ArticleGeneration -> finalArticle s' = finalArticle s)
  /\ (actionFn <> TopicGeneration -> actionFn <> GroupGeneration ->
      prompts s' = prompts s).
Proof.
  simpl.
  destruct actionFn; unfold run_action, performAITopicGeneration,
    performResearch, performGroupGeneration, performStartDiscussion,
    performArticleGeneration;
    repeat split; intros; try congruence;
    match goal with
    | |- ?f (store (fst ?call)) = ?f (store c) =>
      run_frame (fun s => f s = f (store c))
    end.
Qed.

(** X19. A generation run directly, without the confirmed invalidation,
    writes the entity of its own step only: it never confirms the topic,
    never moves the current step, never touches the supplemental query,
    and leaves the entities of all other steps, later ones included, as
    they are.  The prompts are written by the two single-shot generations
    only. *)
Theorem direct_run_writes_own_entity (env : Env) (actionFn : RerunAction)
        (snap : AppState) (c : Controller) :
  let s := store c in
  let s' := store (run_action env actionFn snap c) in
  isTopicConfirmed s' = isTopicConfirmed s
  /\ step s' = step s
  /\ supplementalResearchQuery s' = supplementalResearchQuery s
  /\ (actionFn <> TopicGeneration -> topic s' = topic s)
  /\ (actionFn <> Research ->
      researchData s' = researchData s /\ citations s' = citations s)
  /\ (actionFn <> GroupGeneration -> characters s' = characters s)
  /\ (actionFn <> StartDiscussion ->
      meetingTranscript s' = meetingTranscript s)
  /\ (actionFn <> ArticleGeneration -> finalArticle s' = finalArticle s)
  /\ (actionFn <> TopicGeneration -> actionFn <> GroupGeneration ->
      prompts s' = prompts s).
Proof. apply run_action_frame. Qed.

Lemma direct_run_writes_own_entity_witness :
  finalArticle (store (run_action sample_env Research populated_state
                                  populated_controller)) = js "# Title"
  /\ characters (store (run_action sample_env Research populated_state
                                   populated_controller))
     = characters populated_state.
Proof.
  destruct (direct_run_writes_own_entity sample_env Research populated_state
              populated_controller)
    as (_ & _ & _ & _ & _ & Hch & _ & Hf & _).
  split; [apply Hf | apply Hch]; discriminate.
Defined.

(** A property of the store that every write of the page keeps is kept by
    every action of the page. *)
Section HandleInvariant.

Variable P : AppState -> Prop.
Variable env : Env.

Hypothesis P_resetStepsFrom : forall n, preserves P (resetStepsFrom n).
Hypothesis P_resetAll : preserves P resetAll.
Hypothesis P_setStep : forall u, preserves P (setStep u).
Hypothesis P_setTopic : forall u, preserves P (setTopic u).
Hypothesis P_confirmTopic : preserves P confirmTopic.
Hypothesis P_setError : forall u, preserves P (setError u).
Hypothesis P_setQuery : forall u, preserves P (setSupplementalResearchQuery u).
Hypothesis P_setFinalArticle : forall u, preserves P (setFinalArticle u).
Hypothesis P_setPrompts : forall u, preserves P (setPrompts u).
Hypothesis P_setCharacters : forall u, preserves P (setCharacters u).
Hypothesis P_deleteCharacter : forall i, preserves P (deleteCharacter i).
Hypothesis P_topic :
  forall snap c,
    P (store c) -> P (store (performAITopicGeneration env snap c)).
Hypothesis P_group :
  forall snap c,
    P (store c) -> P (store (performGroupGeneration env snap c)).
Hypothesis P_stream :
  forall kind stepNumber call res c,
    1 <= stepNumber <= 5 ->
    P (store c) ->
    P (store (fst (handleStreamApiCall stepNumber call res
                                       (callbacks_of kind) None c))).





End HandleInvariant.















(** ** Confirmed reruns, the extension, the research text, persistence *)





Lemma fragments_conductResearch (ps : list (Consumer * ResponseChunk)) :
  concat (fragments (flat_map conductResearch_chunk ps))
  = concat (returned_texts ps).
Proof.
  unfold returned_texts. induction ps as [|[who ch] ps IH]; [done|].
  change (flat_map conductResearch_chunk ((who, ch) :: ps))
    with (conductResearch_chunk (who, ch) ++ flat_map conductResearch_chunk ps).
  rewrite fragments_app, concat_app, IH.
  destruct who; simpl; [done|].
  unfold streamGenerator_chunk.
  destruct (chunk_text ch); simpl; by rewrite ?app_nil_r.
Qed.

(** X24. What an initial research stores as research data is the text of
    the chunks that the returned generator pulled from the response, in
    order: the text of a chunk pulled by the background generator
    [finalStream] is not in it, whereas (C4) the citations of all chunks
    are kept.  What was in the research data before the call is not kept
    either. *)
Theorem research_stores_returned_text_only (env : Env) (snap : AppState)
        (c : Controller) (sched : ScheduledResponse) (p : jsstring) :
  answer_research env (request_of Research snap) = Resolved (sched, p) ->
  researchData (store (performResearch env snap c))
  = concat (returned_texts (pulled sched)).
Proof.
  intros Hans. unfold performResearch.
  change (ConductResearchStream (topic snap) (step2 (prompts snap)))
    with (request_of Research snap).
  rewrite Hans.
  pose proof (stream_buffer ResearchCall 2 (request_of Research snap)
                (conductResearchStream (Resolved (sched, p))) c) as H.
  simpl in H. etrans; [exact H|]. apply fragments_conductResearch.
Qed.

Lemma research_stores_returned_text_only_witness :
  researchData (store (performResearch sample_env populated_state
                                       populated_controller)) = js "B".
Proof.
  etrans; [eapply research_stores_returned_text_only; reflexivity|].
  reflexivity.
Defined.

Lemma partialize_durable (state : AppState) :
  partialize state
  = [ ("step", VNumber (step state));
      ("topic", VString (topic state));
      ("isTopicConfirmed", VBoolean (isTopicConfirmed state));
      ("researchData", VString (researchData state));
      ("supplementalResearchQuery",
       VString (supplementalResearchQuery state));
      ("citations", VCitations (citations state));
      ("characters", VCharacters (characters state));
      ("meetingTranscript", VString (meetingTranscript state));
      ("finalArticle", VString (finalArticle state));
      ("prompts", VPrompts (prompts state)) ]%string.
Proof. reflexivity. Qed.

(** X25. A single-shot generation that is rejected changes nothing of
    what is persisted: the record [partialize] takes of the store is the
    same after the call as before. *)
Theorem rejected_generation_changes_nothing_durable
        (env : Env) (snap : AppState) (c : Controller) (e : Thrown) :
  (answer_topic env (request_of TopicGeneration snap) = Rejected e ->
   partialize (store (performAITopicGeneration env snap c))
   = partialize (store c))
  /\ (answer_group env (request_of GroupGeneration snap) = Rejected e ->
      partialize (store (performGroupGeneration env snap c))
      = partialize (store c)).
Proof.
  split; intros Hans.
  - unfold performAITopicGeneration, handleApiCall.
    change (GenerateTopic (step1 (prompts snap)))
      with (request_of TopicGeneration snap).
    rewrite Hans. rewrite !partialize_durable.
    destruct c as [s ? ? ?]. destruct s. reflexivity.
  - unfold performGroupGeneration, handleApiCall.
    change (GenerateMeetingGroup (topic snap) (researchData snap)
                                 (step3 (prompts snap)))
      with (request_of GroupGeneration snap).
    rewrite Hans. rewrite !partialize_durable.
    destruct c as [s ? ? ?]. destruct s. reflexivity.
Qed.

Lemma rejected_generation_changes_nothing_durable_witness :
  partialize
    (store (performGroupGeneration
              {| answer_topic := answer_topic sample_env;
                 answer_group := fun _ => Rejected (ErrorObj (js "down"));
                 answer_research := answer_research sample_env;
                 answer_stream := answer_stream sample_env |}
              populated_state populated_controller))
  = partialize populated_state.
Proof.
  destruct (rejected_generation_changes_nothing_durable
              {| answer_topic := answer_topic sample_env;
                 answer_group := fun _ => Rejected (ErrorObj (js "down"));
                 answer_research := answer_research sample_env;
                 answer_stream := answer_stream sample_env |}
              populated_state populated_controller (ErrorObj (js "down")))
    as [_ H].
  apply H. reflexivity.
Defined.
